(** * Remittance reconciliation: header detection and amount matching

    A shallow embedding of [src/headerDetection.js] and
    [src/dataProcessor.js], followed by the properties established about
    them.

    Conventions of the embedding.
    - A JavaScript number is the exact rational it denotes, or one of
      [Infinity], [-Infinity], [NaN]: arithmetic follows IEEE 754 on the
      special values and is exact on finite ones (binary64 rounding and the
      sign of zero are not modelled).
    - A JavaScript string is a [string] of ASCII characters; [toLowerCase],
      [trim] and the regular expressions act on ASCII.
    - A JavaScript object used as a record or table is the list of its own
      properties in [Object.keys] order; members inherited from
      [Object.prototype] are not modelled.
    - A thrown [TypeError] is the result [None]. *)

From Stdlib Require Import List String Ascii Bool Arith ZArith QArith Qround.
From Stdlib Require Import Lia Lqa ListSet DecimalString Permutation Sorted.
Import ListNotations.

Close Scope Q_scope.

(** ** JavaScript numbers *)

Module JsNumber.

Inductive number : Type :=
| Fin (q : Q)
| PInf
| NInf
| NaN.

Definition of_nat (n : nat) : number := Fin (inject_Z (Z.of_nat n)).

Definition zero : number := Fin 0.
Definition one : number := Fin 1.

Definition Qsign (q : Q) : comparison := Qcompare q 0.

Definition neg (x : number) : number :=
  match x with
  | Fin q => Fin (Qred (- q))
  | PInf => NInf
  | NInf => PInf
  | NaN => NaN
  end.

Definition add (x y : number) : number :=
  match x, y with
  | NaN, _ | _, NaN => NaN
  | Fin a, Fin b => Fin (Qred (a + b))
  | PInf, NInf | NInf, PInf => NaN
  | PInf, _ | _, PInf => PInf
  | NInf, _ | _, NInf => NInf
  end.

Definition sub (x y : number) : number := add x (neg y).

(* The sign of an infinity multiplied or divided by a finite value. *)
Definition signed_inf (positive : bool) : number :=
  if positive then PInf else NInf.

Definition mul (x y : number) : number :=
  match x, y with
  | NaN, _ | _, NaN => NaN
  | Fin a, Fin b => Fin (Qred (a * b))
  | Fin a, PInf | PInf, Fin a =>
      match Qsign a with Eq => NaN | Gt => PInf | Lt => NInf end
  | Fin a, NInf | NInf, Fin a =>
      match Qsign a with Eq => NaN | Gt => NInf | Lt => PInf end
  | PInf, PInf | NInf, NInf => PInf
  | PInf, NInf | NInf, PInf => NInf
  end.

Definition div (x y : number) : number :=
  match x, y with
  | NaN, _ | _, NaN => NaN
  | Fin a, Fin b =>
      match Qsign b with
      | Eq => match Qsign a with Eq => NaN | Gt => PInf | Lt => NInf end
      | _ => Fin (Qred (a / b))
      end
  | Fin _, PInf | Fin _, NInf => zero
  | PInf, Fin b => signed_inf (negb (Qle_bool b 0) || Qeq_bool b 0)
  | NInf, Fin b => signed_inf (negb (Qle_bool 0 b))
  | _, _ => NaN
  end.

(* [x < y]; false as soon as one side is NaN. *)
Definition ltb (x y : number) : bool :=
  match x, y with
  | NaN, _ | _, NaN => false
  | Fin a, Fin b => negb (Qle_bool b a)
  | NInf, NInf | PInf, _ | _, NInf => false
  | NInf, _ | _, PInf => true
  end.

(* [Math.min(x, y)] *)
Definition min (x y : number) : number :=
  match x, y with
  | NaN, _ | _, NaN => NaN
  | _, _ => if ltb y x then y else x
  end.

(* [Math.round(x)]: the integer nearest to [x], ties towards +Infinity. *)
Definition round (x : number) : number :=
  match x with
  | Fin q => Fin (inject_Z (Qfloor (q + (1 # 2))))
  | _ => x
  end.

(* ToBoolean on a number: false for 0 and NaN. *)
Definition truthy (x : number) : bool :=
  match x with
  | Fin q => negb (Qeq_bool q 0)
  | NaN => false
  | _ => true
  end.

(* [x || 0] *)
Definition or_zero (x : number) : number := if truthy x then x else zero.

(* SameValueZero on numbers. *)
Definition same (x y : number) : bool :=
  match x, y with
  | Fin a, Fin b => Qeq_bool a b
  | PInf, PInf | NInf, NInf | NaN, NaN => true
  | _, _ => false
  end.

(* Equality of the denoted values. *)
Definition eqv (x y : number) : Prop :=
  match x, y with
  | Fin a, Fin b => (a == b)%Q
  | PInf, PInf | NInf, NInf | NaN, NaN => True
  | _, _ => False
  end.

(* [x <= y] on values that are not NaN. *)
Definition le (x y : number) : Prop :=
  match x, y with
  | NaN, _ | _, NaN => False
  | Fin a, Fin b => (a <= b)%Q
  | NInf, _ | _, PInf => True
  | _, _ => False
  end.

(* A score: a non-negative finite value or +Infinity. *)
Definition nonneg (x : number) : Prop :=
  match x with
  | Fin q => (0 <= q)%Q
  | PInf => True
  | _ => False
  end.

End JsNumber.

Import JsNumber.

Declare Scope js_scope.
Delimit Scope js_scope with js.
Infix "+" := add : js_scope.
Infix "-" := sub : js_scope.
Infix "*" := mul : js_scope.
Infix "/" := div : js_scope.
Infix "<?" := ltb : js_scope.

(** ** JavaScript strings *)

Module JsString.

Local Open Scope char_scope.
Local Open Scope string_scope.

Definition is_digit (c : ascii) : bool :=
  let n := nat_of_ascii c in (48 <=? n)%nat && (n <=? 57)%nat.

Definition digit_value (c : ascii) : Z := Z.of_nat (nat_of_ascii c - 48).

(* WhiteSpace and LineTerminator code points below 128. *)
Definition is_space (c : ascii) : bool :=
  let n := nat_of_ascii c in ((9 <=? n)%nat && (n <=? 13)%nat) || (n =? 32)%nat.

Definition lower_char (c : ascii) : ascii :=
  let n := nat_of_ascii c in
  if (65 <=? n)%nat && (n <=? 90)%nat then ascii_of_nat (n + 32) else c.

(* [s.toLowerCase()] *)
Fixpoint toLowerCase (s : string) : string :=
  match s with
  | EmptyString => EmptyString
  | String c r => String (lower_char c) (toLowerCase r)
  end.

(* [s.includes(t)] *)
Fixpoint includes (s t : string) : bool :=
  prefix t s ||
  match s with
  | EmptyString => false
  | String _ r => includes r t
  end.

Fixpoint drop_spaces (l : list ascii) : list ascii :=
  match l with
  | c :: r => if is_space c then drop_spaces r else l
  | [] => []
  end.

(* [s.trim()] *)
Definition trim (s : string) : string :=
  string_of_list_ascii
    (rev (drop_spaces (rev (drop_spaces (list_ascii_of_string s))))).

(* The longest run of decimal digits at the head of [l], and the rest. *)
Fixpoint span_digits (l : list ascii) : list ascii * list ascii :=
  match l with
  | c :: r =>
      if is_digit c then let (d, rest) := span_digits r in (c :: d, rest)
      else ([], l)
  | [] => ([], [])
  end.

Definition digits_value (d : list ascii) : Z :=
  fold_left (fun acc c => (10 * acc + digit_value c)%Z) d 0%Z.

Definition strip_prefix (p : string) (l : list ascii) : option (list ascii) :=
  let pl := list_ascii_of_string p in
  if prefix p (string_of_list_ascii l) then Some (skipn (List.length pl) l)
  else None.

(* ExponentPart: [e] or [E], an optional sign, at least one digit. *)
Definition parse_exponent (l : list ascii) : Z * list ascii :=
  match l with
  | c :: r =>
      if Ascii.eqb c "e" || Ascii.eqb c "E" then
        let '(negative, r') :=
          match r with
          | s :: r' =>
              if Ascii.eqb s "-" then (true, r')
              else if Ascii.eqb s "+" then (false, r') else (false, r)
          | [] => (false, r)
          end in
        let (d, rest) := span_digits r' in
        match d with
        | [] => (0%Z, l)
        | _ => ((if negative then - digits_value d else digits_value d)%Z, rest)
        end
      else (0%Z, l)
  | [] => (0%Z, l)
  end.

(* The longest prefix of [l] that is a StrDecimalLiteral: its value and
   what follows it, or [None] when no prefix is one. *)
Definition parse_decimal (l : list ascii) : option (number * list ascii) :=
  let '(negative, l1) :=
    match l with
    | c :: r =>
        if Ascii.eqb c "-" then (true, r)
        else if Ascii.eqb c "+" then (false, r) else (false, l)
    | [] => (false, l)
    end in
  match strip_prefix "Infinity" l1 with
  | Some rest => Some (if negative then NInf else PInf, rest)
  | None =>
      let (ip, l2) := span_digits l1 in
      let (fp, l3) :=
        match l2 with
        | c :: r =>
            if Ascii.eqb c "." then
              let (fp, r') := span_digits r in
              match ip, fp with
              | [], [] => ([], l2)
              | _, _ => (fp, r')
              end
            else ([], l2)
        | [] => ([], l2)
        end in
      match ip, fp with
      | [], [] => None
      | _, _ =>
          let (e, rest) := parse_exponent l3 in
          let mant :=
            (inject_Z (digits_value ip)
             + inject_Z (digits_value fp)
               / inject_Z (10 ^ Z.of_nat (List.length fp)))%Q in
          let v := Qred (mant * Qpower 10 e)%Q in
          Some (Fin (if negative then Qred (- v) else v), rest)
      end
  end.

(* [parseFloat(s)] *)
Definition parseFloat (s : string) : number :=
  match parse_decimal (drop_spaces (list_ascii_of_string s)) with
  | Some (v, _) => v
  | None => NaN
  end.

Definition is_hex_digit (c : ascii) : bool :=
  let n := nat_of_ascii (lower_char c) in
  is_digit c || ((97 <=? n)%nat && (n <=? 102)%nat).
Definition is_octal_digit (c : ascii) : bool :=
  let n := nat_of_ascii c in (48 <=? n)%nat && (n <=? 55)%nat.
Definition is_binary_digit (c : ascii) : bool :=
  Ascii.eqb c "0" || Ascii.eqb c "1".

(* NonDecimalIntegerLiteral: [0x], [0o] or [0b] and at least one digit. *)
Definition is_non_decimal_literal (l : list ascii) : bool :=
  match l with
  | z :: k :: (_ :: _) as d =>
      Ascii.eqb z "0" &&
      (let k' := lower_char k in
       if Ascii.eqb k' "x" then forallb is_hex_digit d
       else if Ascii.eqb k' "o" then forallb is_octal_digit d
       else if Ascii.eqb k' "b" then forallb is_binary_digit d
       else false)
  | _ => false
  end.

(* [isNaN(s)] on a string: whether [Number(s)] is NaN. *)
Definition isNaN (s : string) : bool :=
  let l := list_ascii_of_string (trim s) in
  match l with
  | [] => false
  | _ =>
      negb (is_non_decimal_literal l ||
            match parse_decimal l with
            | Some (_, []) => true
            | _ => false
            end)
  end.

Definition is_date_separator (c : ascii) : bool :=
  Ascii.eqb c "/" || Ascii.eqb c "-" || Ascii.eqb c ".".

(* [s.match(/^\d{1,2}[\/\-\.]\d{1,2}[\/\-\.]\d{2,4}$/)] is not null. *)
Definition matches_date (s : string) : bool :=
  let (d1, r1) := span_digits (list_ascii_of_string s) in
  let n1 := List.length d1 in
  (1 <=? n1)%nat && (n1 <=? 2)%nat &&
  match r1 with
  | s1 :: r1' =>
      is_date_separator s1 &&
      (let (d2, r2) := span_digits r1' in
       let n2 := List.length d2 in
       (1 <=? n2)%nat && (n2 <=? 2)%nat &&
       match r2 with
       | s2 :: r2' =>
           is_date_separator s2 &&
           (let (d3, r3) := span_digits r2' in
            let n3 := List.length d3 in
            (2 <=? n3)%nat && (n3 <=? 4)%nat &&
            match r3 with [] => true | _ => false end)
       | [] => false
       end)
  | [] => false
  end.

(* [s.replace(/[^\d.-]/g, '')] *)
Definition strip_non_numeric (s : string) : string :=
  string_of_list_ascii
    (filter (fun c => is_digit c || Ascii.eqb c "." || Ascii.eqb c "-")
       (list_ascii_of_string s)).

(* Decimal digits of the fraction [r / d], at most [fuel] of them. *)
Fixpoint fraction_digits (fuel : nat) (r d : Z) : string :=
  match fuel with
  | O => EmptyString
  | S fuel' =>
      if (r =? 0)%Z then EmptyString
      else String (ascii_of_nat (48 + Z.to_nat (10 * r / d)))
             (fraction_digits fuel' ((10 * r) mod d)%Z d)
  end.

(* [String(x)] for a number: the decimal rendering of the value.  This is
   Number::toString for integers below 10^21 and for decimal fractions of up
   to 21 digits that a binary64 prints back exactly. *)
Definition number_to_string (x : number) : string :=
  match x with
  | NaN => "NaN"
  | PInf => "Infinity"
  | NInf => "-Infinity"
  | Fin q =>
      let q' := Qred q in
      let n := Z.abs (Qnum q') in
      let d := Zpos (Qden q') in
      let body :=
        NilZero.string_of_int (Z.to_int (n / d)) ++
        (if (n mod d =? 0)%Z then EmptyString
         else "." ++ fraction_digits 21 (n mod d)%Z d) in
      if (Qnum q' <? 0)%Z then "-" ++ body else body
  end.

End JsString.

Import JsString.

Local Open Scope string_scope.

(** ** Failure *)

(* A computation that may throw: [None] is the thrown TypeError. *)
Definition bind {A B : Type} (x : option A) (f : A -> option B) : option B :=
  match x with
  | Some a => f a
  | None => None
  end.

Notation "x <- c ;; k" := (bind c (fun x => k))
  (at level 61, c at next level, right associativity).
Notation "' p <- c ;; k" := (bind c (fun x => let 'p := x in k))
  (at level 61, p pattern, c at next level, right associativity).

(** ** Cells, rows and grids *)

Inductive cell : Type :=
| CNull
| CUndefined
| CBool (b : bool)
| CNum (n : number)
| CStr (s : string)
| CDate (ref : nat) (text : string).
(* [CDate ref text]: the Date object of identity [ref] whose [toString()]
   is [text]. *)

Definition row : Type := list cell.

(* A grid is an array of rows; a slot may hold null or undefined ([None]). *)
Definition grid : Type := list (option row).

(* [cell !== null && cell !== undefined && cell !== ''] *)
Definition non_empty (c : cell) : bool :=
  match c with
  | CNull | CUndefined => false
  | CStr s => negb (s =? "")
  | _ => true
  end.

(* [String(cell)], also the property key a cell denotes. *)
Definition toString (c : cell) : string :=
  match c with
  | CNull => "null"
  | CUndefined => "undefined"
  | CBool b => if b then "true" else "false"
  | CNum n => number_to_string n
  | CStr s => s
  | CDate _ text => text
  end.

(* [l.slice(s, e)] for indices within range of nat. *)
Definition slice {A : Type} (s e : nat) (l : list A) : list A :=
  firstn (e - s) (skipn s l).

(* [l.findIndex(p)], [None] for -1. *)
Fixpoint findIndex {A : Type} (p : A -> bool) (l : list A) : option nat :=
  match l with
  | [] => None
  | x :: r => if p x then Some 0 else option_map S (findIndex p r)
  end.

(** ** headerDetection.js *)

Inductive value_type : Type :=
| TNumber
| TDate
| TNumericString
| TString
| TBoolean.

Definition value_type_eq_dec (a b : value_type) : {a = b} + {a <> b}.
Proof. decide equality. Defined.

(* The type-categorising branch of the [dataRows.forEach] body. *)
Definition addType (c : cell) (types : set value_type) : set value_type :=
  match c with
  | CNum _ => set_add value_type_eq_dec TNumber types
  | CStr s =>
      if matches_date s then set_add value_type_eq_dec TDate types
      else if negb (isNaN s) then set_add value_type_eq_dec TNumericString types
      else set_add value_type_eq_dec TString types
  | CBool _ => set_add value_type_eq_dec TBoolean types
  | _ => types
  end.

(* [dataRows.forEach(row => ...)] for one column: the set of categories seen
   and the number of non-empty cells.  Reading [row.length] of an absent
   row throws. *)
Fixpoint scanColumn (colIndex : nat) (dataRows : list (option row))
    (types : set value_type) (validCells : nat)
  : option (set value_type * nat) :=
  match dataRows with
  | [] => Some (types, validCells)
  | None :: _ => None
  | Some r :: rest =>
      match nth_error r colIndex with
      | Some c =>
          if non_empty c
          then scanColumn colIndex rest (addType c types) (S validCells)
          else scanColumn colIndex rest types validCells
      | None => scanColumn colIndex rest types validCells
      end
  end.

(* The loop [for (colIndex = 0; colIndex < headerRow.length; colIndex++)],
   entered at [colIndex] with the header cells still to visit. *)
Fixpoint countConsistent (headerCells : list cell) (colIndex : nat)
    (dataRows : list (option row)) (consistentColumns : nat) : option nat :=
  match headerCells with
  | [] => Some consistentColumns
  | h :: rest =>
      if negb (non_empty h)
      then countConsistent rest (S colIndex) dataRows consistentColumns
      else
        '(types, validCells) <- scanColumn colIndex dataRows [] 0 ;;
        countConsistent rest (S colIndex) dataRows
          (if (0 <? validCells)%nat && (List.length types <=? 2)%nat
           then S consistentColumns else consistentColumns)
  end.

(* [jsonData.slice(headerRowIndex + 1,
                    headerRowIndex + Math.min(5, jsonData.length - headerRowIndex - 1))] *)
Definition followingRows (jsonData : grid) (headerRowIndex : nat)
  : list (option row) :=
  slice (headerRowIndex + 1)
    (headerRowIndex + Nat.min 5 (List.length jsonData - headerRowIndex - 1))
    jsonData.

Definition evaluateConsistencyOfFollowingRows (jsonData : grid)
    (headerRowIndex : nat) : option number :=
  (* headerRowIndex >= jsonData.length - 1 *)
  if (List.length jsonData <=? headerRowIndex + 1)%nat then Some zero
  else
    let headerRow := nth headerRowIndex jsonData None in
    let dataRows := followingRows jsonData headerRowIndex in
    if (List.length dataRows =? 0)%nat then Some zero
    else
      hr <- headerRow ;;
      consistentColumns <- countConsistent hr 0 dataRows 0 ;;
      Some (if (0 <? List.length hr)%nat
            then (of_nat consistentColumns / of_nat (List.length hr))%js
            else zero).

Definition commonHeaderTerms : list string :=
  ["id"; "name"; "date"; "number"; "code"; "description";
   "amount"; "quantity"; "price"; "total"; "address"; "phone"; "email";
   "status"; "mobile";
   "patient"; "doctor"; "bill"; "ins"; "file"; "card"; "payer"; "claim";
   "sender"; "service";
   "net"; "clinician"; "denial"; "submission"; "remittance"; "billno";
   "fileno"; "qty"; "amt"].

Definition forbiddenWords : list string :=
  ["garbage"; "page"; "report"; "generated"; "total"; "summary"].

(* [row.filter(cell => cell !== null && cell !== undefined && cell !== '').length] *)
Definition filledCount (r : row) : nat := List.length (filter non_empty r).

Definition fillRate (r : row) : number :=
  (of_nat (filledCount r) / of_nat (List.length r))%js.

(* [typeof cell === 'string' && isNaN(cell.toString().trim())] *)
Definition isTextCell (c : cell) : bool :=
  match c with
  | CStr s => isNaN (trim s)
  | _ => false
  end.

Definition textCellRatio (r : row) : number :=
  (of_nat (List.length (filter isTextCell r)) / of_nat (List.length r))%js.

Definition headerTermMatches (r : row) : nat :=
  fold_left
    (fun matches c =>
       match c with
       | CStr s =>
           fold_left
             (fun m term => if includes (toLowerCase s) term then S m else m)
             commonHeaderTerms matches
       | _ => matches
       end)
    r 0.

Definition headerTermScore (r : row) : number :=
  JsNumber.min (of_nat (headerTermMatches r) / of_nat (List.length r))%js one.

Definition hasForbiddenWords (r : row) : bool :=
  existsb
    (fun c =>
       match c with
       | CStr s => existsb (fun word => includes (toLowerCase s) word) forbiddenWords
       | _ => false
       end)
    r.

Definition hasOnlyOneValue (r : row) : bool := (filledCount r =? 1)%nat.

(* [cell?.toString()?.toLowerCase()], [None] for undefined. *)
Definition lowerText (c : cell) : option string :=
  match c with
  | CNull | CUndefined => None
  | _ => Some (toLowerCase (toString c))
  end.

Definition option_string_eq_dec (a b : option string) : {a = b} + {a <> b}.
Proof. decide equality. apply string_dec. Defined.

(* [new Set(row.map(cell => cell?.toString()?.toLowerCase()))] *)
Definition uniqueValues (r : row) : set (option string) :=
  fold_left (fun s v => set_add option_string_eq_dec v s) (map lowerText r) [].

Definition uniquenessRatio (r : row) : number :=
  (of_nat (List.length (uniqueValues r)) / of_nat (filledCount r))%js.

(* The weighted sum of the five features, before penalties. *)
Definition weightedScore (jsonData : grid) (rowIndex : nat) (r : row)
  : option number :=
  consistencyScore <- evaluateConsistencyOfFollowingRows jsonData rowIndex ;;
  Some (fillRate r * Fin (1 # 5)
        + textCellRatio r * Fin (1 # 4)
        + headerTermScore r * Fin (1 # 10)
        + uniquenessRatio r * Fin (3 # 20)
        + consistencyScore * Fin (3 # 10))%js.

Definition applyPenalties (r : row) (score : number) : number :=
  let score := if hasForbiddenWords r then (score * Fin (3 # 10))%js else score in
  if hasOnlyOneValue r then (score * Fin (1 # 5))%js else score.

Definition rowScore (jsonData : grid) (rowIndex : nat) (r : row)
  : option number :=
  score <- weightedScore jsonData rowIndex r ;;
  Some (applyPenalties r score).

Record scoredRow : Type := { rowIndex : nat; score : number }.

(* The scanning loop, entered at [index] with [rows] still to visit. *)
Fixpoint scanRows (jsonData : grid) (rows : list (option row)) (index : nat)
    (rowScores : list scoredRow) : option (list scoredRow) :=
  match rows with
  | [] => Some rowScores
  | None :: rest | Some [] :: rest => scanRows jsonData rest (S index) rowScores
  | Some r :: rest =>
      s <- rowScore jsonData index r ;;
      scanRows jsonData rest (S index)
        (rowScores ++ [{| rowIndex := index; score := s |}])
  end.

(* The comparator [(a, b) => b.score - a.score]. *)
Definition compareScores (a b : scoredRow) : number := (score b - score a)%js.

(* [Array.prototype.sort] is stable: [x], which came before every element
   of [l], moves behind [y] only when the comparator is positive. *)
Fixpoint insertSorted (x : scoredRow) (l : list scoredRow) : list scoredRow :=
  match l with
  | [] => [x]
  | y :: rest =>
      if (zero <? compareScores x y)%js then y :: insertSorted x rest
      else x :: l
  end.

Definition sortByScore (l : list scoredRow) : list scoredRow :=
  fold_right insertSorted [] l.

(* [jsonData] is an array: the [!jsonData] test of the two functions, which
   sends a missing argument to the result 0, has no other case to model. *)
Definition findHeaderRow (jsonData : grid) (maxRowsToCheck : nat) : option nat :=
  if (List.length jsonData =? 0)%nat then Some 0
  else
    let rowsToCheck := Nat.min maxRowsToCheck (List.length jsonData) in
    rowScores <- scanRows jsonData (firstn rowsToCheck jsonData) 0 [] ;;
    match sortByScore rowScores with
    | best :: _ =>
        if (score best <? Fin (1 # 5))%js then Some 0 else Some (rowIndex best)
    | [] => Some 0
    end.

(* The default value of [maxRowsToCheck]. *)
Definition defaultMaxRows : nat := 10.

(** ** Objects *)

(* The own properties of a plain object, in [Object.keys] order. *)
Definition object (V : Type) : Type := list (string * V).

Fixpoint obj_get {V : Type} (o : object V) (k : string) : option V :=
  match o with
  | [] => None
  | (k', v) :: rest => if (k' =? k)%string then Some v else obj_get rest k
  end.

(* [o[k] = v]: an existing property keeps its place, a new one goes last. *)
Fixpoint obj_set {V : Type} (o : object V) (k : string) (v : V) : object V :=
  match o with
  | [] => [(k, v)]
  | (k', v') :: rest =>
      if (k' =? k)%string then (k', v) :: rest else (k', v') :: obj_set rest k v
  end.

Definition keys {V : Type} (o : object V) : list string := map fst o.

Definition record : Type := object cell.

(* [row[field]]: undefined when the record has no such property. *)
Definition prop (r : record) (field : string) : cell :=
  match obj_get r field with
  | Some v => v
  | None => CUndefined
  end.

(** ** dataProcessor.js *)

(* [parseFloat(v)] on a cell: the argument is first converted to a string;
   a number prints and parses back to itself. *)
Definition parseFloatCell (v : cell) : number :=
  match v with
  | CNum n => n
  | _ => parseFloat (toString v)
  end.

(* Lines 50-62 of createRemittanceMapping: the amount of one source cell. *)
Definition parseRemittanceAmount (rawAmt : cell) : number :=
  match rawAmt with
  | CNum n => n
  | CStr s => or_zero (parseFloat (strip_non_numeric s))
  | _ => zero
  end.

(* Line 21 of processMatchedData: [parseFloat(row['Amt']) || 0]. *)
Definition parseOriginalAmt (v : cell) : number := or_zero (parseFloatCell v).

(* ToBoolean on the optional field name: undefined and '' are falsy. *)
Definition fieldGiven (amtFieldName : option string) : option string :=
  match amtFieldName with
  | Some s => if (s =? "")%string then None else Some s
  | None => None
  end.

Definition rowAmount (amtFieldName : option string) (r : record) : number :=
  match fieldGiven amtFieldName with
  | Some f => parseRemittanceAmount (prop r f)
  | None => zero
  end.

Record remittanceMapping : Type := {
  remittanceIdCounts : object number;
  remittanceAmountsByID : object (list number);
  remittanceAmtSumByID : object number
}.

(* The body of [remittanceData.forEach]. *)
Definition recordRow (remittanceIdField : string) (amtFieldName : option string)
    (acc : object number * object (list number)) (r : record)
  : object number * object (list number) :=
  let (counts, amountsByID) := acc in
  let id := toString (prop r remittanceIdField) in
  let counts :=
    obj_set counts id
      (match obj_get counts id with Some c => or_zero c | None => zero end
       + one)%js in
  let amount := rowAmount amtFieldName r in
  let amountsByID :=
    match obj_get amountsByID id with
    | Some _ => amountsByID
    | None => obj_set amountsByID id []
    end in
  let amounts :=
    match obj_get amountsByID id with Some l => l | None => [] end in
  (counts, obj_set amountsByID id (amounts ++ [amount])%list).

(* [amounts.reduce((total, amt) => total + amt, 0)] *)
Definition sumAmounts (amounts : list number) : number :=
  fold_left add amounts zero.

(* The three tables are read by key only; their properties are listed here
   in creation order (JavaScript lists integer-like keys first). *)
Definition createRemittanceMapping (remittanceData : list record)
    (remittanceIdField : string) (amtFieldName : option string)
  : remittanceMapping :=
  let (counts, amountsByID) :=
    fold_left (recordRow remittanceIdField amtFieldName) remittanceData ([], []) in
  {| remittanceIdCounts := counts;
     remittanceAmountsByID := amountsByID;
     remittanceAmtSumByID :=
       fold_left (fun sums id =>
                    obj_set sums id
                      (sumAmounts
                         (match obj_get amountsByID id with
                          | Some l => l
                          | None => []
                          end)))
         (keys amountsByID) [] |}.

(* SameValueZero, the equality of [Set.prototype.has]. *)
Definition sameValueZero (a b : cell) : bool :=
  match a, b with
  | CNull, CNull | CUndefined, CUndefined => true
  | CBool x, CBool y => Bool.eqb x y
  | CNum x, CNum y => same x y
  | CStr x, CStr y => (x =? y)%string
  | CDate x _, CDate y _ => (x =? y)%nat
  | _, _ => false
  end.

(* A [Set] of cell values, as the list of its elements. *)
Definition idSet : Type := list cell.

Definition has (s : idSet) (v : cell) : bool := existsb (sameValueZero v) s.

(* [new Set(remittanceData.map(row => row[remittanceIdField]))] *)
Definition makeIdSet (remittanceData : list record) (remittanceIdField : string)
  : idSet :=
  fold_left (fun s r =>
               let v := prop r remittanceIdField in
               if has s v then s else (s ++ [v])%list)
    remittanceData [].

Definition findMatchingRecords (submissionData : list record)
    (remittanceIds : idSet) (submissionIdField : string)
  : list record * list record :=
  fold_left
    (fun (acc : list record * list record) (r : record) =>
       let (matchedRows, unmatchedRows) := acc in
       if has remittanceIds (prop r submissionIdField)
       then ((matchedRows ++ [r])%list, unmatchedRows)
       else (matchedRows, (unmatchedRows ++ [r])%list))
    submissionData ([], []).

(* [remittanceAmtSumByID[rowID] || 0] *)
Definition remitAmtSumOf (remittanceAmtSumByID : object number) (rowID : cell)
  : number :=
  match obj_get remittanceAmtSumByID (toString rowID) with
  | Some v => or_zero v
  | None => zero
  end.

(* [Math.round((originalAmt - remitAmtSum) * 100) / 100] *)
Definition rejectedAmountOf (originalAmt remitAmtSum : number) : number :=
  (round ((originalAmt - remitAmtSum) * Fin 100) / Fin 100)%js.

Definition option_nat_eqb (a : option nat) (b : nat) : bool :=
  match a with
  | Some n => (n =? b)%nat
  | None => false
  end.

(* [headers.forEach((header, index) => ...)] visits these pairs. *)
Definition indexed {A : Type} (start : nat) (l : list A) : list (nat * A) :=
  combine (seq start (List.length l)) l.

(* The body of [headers.forEach] in processMatchedData. *)
Definition copyHeader (newRow : record) (amtIndex : option nat)
    (remitAmtSum rejectedAmount : number) (result : record) (ih : nat * string)
  : record :=
  let (index, header) := ih in
  let result := obj_set result header (prop newRow header) in
  if option_nat_eqb amtIndex index
  then obj_set (obj_set result "Remit Amt" (CNum remitAmtSum))
         "Rejected Amount" (CNum rejectedAmount)
  else result.

Definition isAmtLabel (header : string) : bool :=
  (toLowerCase header =? "amt")%string.

(* The callback of [matchedRows.map]. *)
Definition enrichRow (submissionIdField : string)
    (remittanceAmtSumByID : object number) (r : record) : record :=
  let newRow := r in
  let headers := keys newRow in
  let amtIndex := findIndex isAmtLabel headers in
  let rowID := prop r submissionIdField in
  let remitAmtSum := remitAmtSumOf remittanceAmtSumByID rowID in
  let originalAmt := parseOriginalAmt (prop r "Amt") in
  let rejectedAmount := rejectedAmountOf originalAmt remitAmtSum in
  fold_left (copyHeader newRow amtIndex remitAmtSum rejectedAmount)
    (indexed 0 headers) [].

Definition processMatchedData (matchedRows : list record)
    (submissionIdField : string) (remittanceAmtSumByID : object number)
  : list record :=
  map (enrichRow submissionIdField remittanceAmtSumByID) matchedRows.

(** ** Sample data *)

Definition sourceA : list record :=
  [ [("ID", CStr "A"); ("Amount", CNum (Fin 10))];
    [("ID", CStr "A"); ("Amount", CNum (Fin (41 # 2)))];
    [("ID", CStr "B"); ("Amount", CNum (Fin 3))];
    [("ID", CStr "A"); ("Amount", CStr "30.25 USD")] ].

Definition sampleGrid : grid :=
  [ Some [CStr "Monthly report"; CStr ""; CStr ""];
    Some [CStr ""; CStr ""; CStr ""];
    Some [CStr "Claim ID"; CStr "Patient Name"; CStr "Amt"];
    Some [CNum (Fin 1); CStr "Ann"; CNum (Fin 10)];
    Some [CNum (Fin 2); CStr "Bob"; CNum (Fin 20)];
    Some [CNum (Fin 3); CStr "Cid"; CNum (Fin 30)];
    Some [CNum (Fin 4); CStr "Dan"; CNum (Fin 40)];
    Some [CNum (Fin 5); CStr "Eve"; CNum (Fin 50)] ].

(** ** Specifications, auxiliary notions and sample data *)

Local Open Scope list_scope.
Local Open Scope nat_scope.

(* The feature as the specification words it: distinct lowercased texts of
   the non-empty cells over the number of non-empty cells, 0 when there is
   none. *)
Definition uniquenessRatio_spec (r : row) : number :=
  let filled := filter non_empty r in
  match filled with
  | [] => zero
  | _ =>
      (of_nat (List.length (nodup option_string_eq_dec (map lowerText filled)))
       / of_nat (List.length filled))%js
  end.

(* The window as the specification words it: rows r+1 .. r+min(4, n-r-1). *)
Definition lookaheadWindow_spec (jsonData : grid) (r : nat) : list (option row) :=
  slice (r + 1) (r + 1 + Nat.min 4 (List.length jsonData - r - 1)) jsonData.

Definition threeRows : grid :=
  [ Some [CStr "Code"]; Some [CNum (Fin 1)]; Some [CNum (Fin 2)] ].


(* The test of [submissionData.forEach] in findMatchingRecords. *)
Definition isMatch (remittanceIds : idSet) (submissionIdField : string)
    (r : record) : bool :=
  has remittanceIds (prop r submissionIdField).




(* The aggregate as the specification words it: the sum over the source
   records bearing the identifier, identifiers compared as values. *)
Definition aggregate_spec (remittanceData : list record) (remittanceIdField : string)
    (amtFieldName : option string) (id : cell) : number :=
  sumAmounts
    (map (rowAmount amtFieldName)
       (filter (fun r => sameValueZero (prop r remittanceIdField) id) remittanceData)).

Definition mixedIds : list record :=
  [ [("ID", CNum (Fin 7)); ("Amt", CNum (Fin 1))];
    [("ID", CStr "7"); ("Amt", CNum (Fin 2))] ].




Definition sumsA : object number := [("A", Fin (243 # 4))].

Definition alreadyEnriched : record :=
  [("Id", CStr "A"); ("Amt", CNum (Fin 100)); ("Remit Amt", CNum (Fin 5))].


(* The entries the scan appends, without the accumulator. *)
Fixpoint entries (jsonData : grid) (rows : list (option row)) (index : nat)
  : option (list scoredRow) :=
  match rows with
  | [] => Some []
  | None :: rest | Some [] :: rest => entries jsonData rest (S index)
  | Some r :: rest =>
      s <- rowScore jsonData index r ;;
      tl <- entries jsonData rest (S index) ;;
      Some ({| rowIndex := index; score := s |} :: tl)
  end.

Definition indexBefore (a b : scoredRow) : Prop := rowIndex a < rowIndex b.

(* An entry of the scan stands for a present, non-empty row at its index. *)
Definition entryOf (jsonData : grid) (rows : list (option row)) (start : nat)
    (e : scoredRow) : Prop :=
  start <= rowIndex e
  /\ exists r, nth_error rows (rowIndex e - start) = Some (Some r)
               /\ r <> []
               /\ rowScore jsonData (rowIndex e) r = Some (score e).

(* The first entry of the greatest score. *)
Fixpoint firstMax (l : list scoredRow) : option scoredRow :=
  match l with
  | [] => None
  | x :: rest =>
      match firstMax rest with
      | None => Some x
      | Some y => if ltb (score x) (score y) then Some y else Some x
      end
  end.

Definition scoresNonneg (l : list scoredRow) : Prop :=
  Forall (fun e => nonneg (score e)) l.

(* Row [k] is inside the scan window and is scored: it is present and has
   at least one column. *)
Definition scanned (jsonData : grid) (maxRows k : nat) (r : row) : Prop :=
  k < Nat.min maxRows (List.length jsonData)
  /\ nth_error jsonData k = Some (Some r)
  /\ r <> [].

Definition present (o : option row) : Prop := o <> None.

(* Row [k] has the greatest score of the window, and is the first to. *)
Definition firstBest (jsonData : grid) (maxRows k : nat) (s : number) : Prop :=
  forall (k' : nat) (r' : row) (s' : number),
    scanned jsonData maxRows k' r' -> rowScore jsonData k' r' = Some s' ->
    le s' s /\ (k' < k -> ltb s' s = true).

Definition reportGrid : grid := [ Some [CStr "report"]; Some [CStr "x"] ].

Definition smallGrid : grid :=
  [ Some [CStr "Claims"; CStr ""];
    Some [CStr "Claim ID"; CStr "Amt"];
    Some [CNum (Fin 1); CNum (Fin 10)];
    Some [CNum (Fin 2); CNum (Fin 20)];
    Some [CNum (Fin 3); CNum (Fin 30)] ].


(* The category of a non-empty cell; a Date object has none. *)
Definition typeOf (x : cell) : option value_type :=
  match x with
  | CNum _ => Some TNumber
  | CStr s =>
      Some (if matches_date s then TDate
            else if isNaN s then TString else TNumericString)
  | CBool _ => Some TBoolean
  | _ => None
  end.

(* The non-empty cells of column [c] in the rows of the window. *)
Definition columnCells (dataRows : list (option row)) (c : nat) : list cell :=
  flat_map
    (fun o =>
       match o with
       | Some cells =>
           match nth_error cells c with
           | Some x => if non_empty x then [x] else []
           | None => []
           end
       | None => []
       end)
    dataRows.

(* The distinct categories of column [c]. *)
Definition columnTypes (dataRows : list (option row)) (c : nat) : list value_type :=
  nodup value_type_eq_dec
    (flat_map (fun x => match typeOf x with Some t => [t] | None => [] end)
       (columnCells dataRows c)).

(* Column [c] is type-consistent: its header cell is not empty, the window
   has a value in it, and at most two categories occur. *)
Definition consistentColumn (headerRow : row) (dataRows : list (option row))
    (c : nat) : bool :=
  match nth_error headerRow c with
  | Some h =>
      non_empty h
      && (0 <? List.length (columnCells dataRows c))
      && (List.length (columnTypes dataRows c) <=? 2)
  | None => false
  end.

Definition consistentColumns (headerRow : row) (dataRows : list (option row)) : nat :=
  List.length (filter (consistentColumn headerRow dataRows) (seq 0 (List.length headerRow))).

(* The score as the claim words it: over the window r+1 .. r+min(4, n-r-1),
   the type-consistent columns among the columns that have a header and a
   value. *)
Definition consistencyScore_spec (jsonData : grid) (i : nat) : number :=
  let headerRow := match nth i jsonData None with Some r => r | None => [] end in
  let window := lookaheadWindow_spec jsonData i in
  let eligible :=
    filter (fun c => non_empty (nth c headerRow CNull)
                     && (0 <? List.length (columnCells window c)))
      (seq 0 (List.length headerRow)) in
  let consistent :=
    filter (fun c => List.length (columnTypes window c) <=? 2) eligible in
  (of_nat (List.length consistent) / of_nat (List.length eligible))%js.

Definition sixRows : grid :=
  [ Some [CStr "Name"; CStr ""];
    Some [CStr "Ann"; CNum (Fin 1)];
    Some [CStr "Bob"; CNum (Fin 2)];
    Some [CStr "Cid"; CNum (Fin 3)];
    Some [CStr "Dan"; CNum (Fin 4)];
    Some [CStr "Eve"; CNum (Fin 5)] ].

(** ** dataProcessor.js: identifyColumns *)

(* The object identifyColumns returns; a field that is undefined or absent
   is [None]. *)
Record columns : Type := {
  amtFieldName : option string;
  idField : option string
}.

(* [a || b] on optional strings: undefined and '' are falsy. *)
Definition orElse (a b : option string) : option string :=
  match fieldGiven a with
  | Some s => Some s
  | None => b
  end.

(* The three predicates of [headers.find]. *)
Definition isAmountHeader (header : string) : bool :=
  (toLowerCase header =? "amt")%string
  || (toLowerCase header =? "amount")%string
  || includes (toLowerCase header) "amount".

Definition isSourceIdHeader (header : string) : bool :=
  (toLowerCase header =? "id")%string || (toLowerCase header =? "billno")%string.

Definition isTargetIdHeader (header : string) : bool :=
  includes (toLowerCase header) "claim" || (toLowerCase header =? "id")%string.

Definition identifyColumns (headers : list string) (fileType : string) : columns :=
  if (fileType =? "remittance")%string then
    {| amtFieldName := find isAmountHeader headers;
       idField := orElse (find isSourceIdHeader headers) (hd_error headers) |}
  else
    {| amtFieldName := None;
       idField := orElse (find isTargetIdHeader headers) (Some "Claim ID"%string) |}.

(** ** ExcelMatcher: the body of processFiles once both files are read *)

(* [row[field]] with a field name that may be undefined: the property key
   of undefined is "undefined". *)
Definition fieldKey (field : option string) : string :=
  match field with
  | Some s => s
  | None => "undefined"%string
  end.


(** ** The identifier set *)

(* No two elements of a set are the same value. *)
Inductive distinctValues : idSet -> Prop :=
| distinct_nil : distinctValues []
| distinct_snoc (s : idSet) (v : cell) :
    distinctValues s -> has s v = false -> distinctValues (s ++ [v]).


(** ** Ranges of numbers *)

(* A finite value between 0 and 1. *)
Definition unitInterval (x : number) : Prop :=
  match x with
  | Fin q => (0 <= q <= 1)%Q
  | _ => False
  end.

Definition isFinite (x : number) : Prop :=
  match x with
  | Fin _ => True
  | _ => False
  end.

(** ** excelUtils: the rows readExcelFile materialises *)

(* [foldM f l s]: a loop whose body may throw. *)
Fixpoint foldM {S A : Type} (f : S -> A -> option S) (l : list A) (s : S)
  : option S :=
  match l with
  | [] => Some s
  | x :: rest => s' <- f s x ;; foldM f rest s'
  end.

(* What the getters of a Date object return. *)
Record dateFields : Type := {
  getDate : nat;
  getMonth : nat;
  getFullYear : nat;
  getHours : nat;
  getMinutes : nat;
  getSeconds : nat
}.

(* A cell object of the worksheet: its type tag [t] and its value [v]. *)
Record sheetCell : Type := { cellType : string; cellValue : cell }.

(* [worksheet[XLSX.utils.encode_cell({r, c})]], undefined as [None]. *)
Definition worksheet : Type := nat -> nat -> option sheetCell.

(* [XLSX.utils.decode_range(worksheet['!ref'])] *)
Record sheetRange : Type := { s_r : nat; s_c : nat; e_r : nat; e_c : nat }.

(* [String(n)] for a natural number. *)
Definition natToString (n : nat) : string :=
  NilZero.string_of_uint (Nat.to_uint n).

(* [s.padStart(2, '0')] *)
Definition padStart2 (s : string) : string :=
  match String.length s with
  | 0 => "00"%string
  | 1 => String.append "0" s
  | _ => s
  end.

(* [date.getHours() % 12 || 12] *)
Definition hours12 (hours : nat) : nat :=
  if (hours mod 12 =? 0) then 12 else hours mod 12.

(* [date.getHours() >= 12 ? 'PM' : 'AM'] *)
Definition ampm (hours : nat) : string :=
  if (12 <=? hours) then "PM"%string else "AM"%string.

(* Lines 225-240 of readExcelFile: the text written for a date cell. *)
Definition formatDate (date : dateFields) : string :=
  let day := padStart2 (natToString (getDate date)) in
  let month := padStart2 (natToString (getMonth date + 1)) in
  let year := natToString (getFullYear date) in
  let timeStr :=
    if (0 <? getHours date) || (0 <? getMinutes date) || (0 <? getSeconds date)
    then
      let minutes := padStart2 (natToString (getMinutes date)) in
      let seconds := padStart2 (natToString (getSeconds date)) in
      String.concat ""
        ["  "; natToString (hours12 (getHours date)); ":"; minutes; ":"; seconds;
         " "; ampm (getHours date)]%string
    else ""%string in
  String.concat "" [day; "/"; month; "/"; year; timeStr]%string.

(* [for (let C = range.s.c; C <= range.e.c; ++C)] *)
Definition columnsOf (range : sheetRange) : list nat :=
  seq (s_c range) (S (e_c range) - s_c range).

(* [for (let R = headerRowIndex + 1; R <= range.e.r; ++R)] *)
Definition rowsBelow (range : sheetRange) (headerRowIndex : nat) : list nat :=
  seq (headerRowIndex + 1) (S (e_r range) - (headerRowIndex + 1)).

(* The columns whose cell just below the header is typed 'd'. *)
Definition dateColumnsOf (ws : worksheet) (range : sheetRange)
    (headerRowIndex : nat) : list nat :=
  filter
    (fun C =>
       match ws (headerRowIndex + 1) C with
       | Some c => (cellType c =? "d")%string
       | None => false
       end)
    (columnsOf range).

Section ReadRows.

(* The Date objects of the workbook, by identity. *)
Variable dates : nat -> dateFields.
Variable ws : worksheet.
Variable range : sheetRange.
Variable headerRowIndex : nat.

(* The body of the inner loop for sheet row [R] and column [C]: the record
   under construction and the flag [isEmpty].  Calling [getDate] on a value
   that is not a Date throws. *)
Definition readColumn (dateColumns : list nat) (R : nat)
    (acc : record * bool) (C : nat) : option (record * bool) :=
  let (row, isEmpty) := acc in
  match ws headerRowIndex C with
  | None => Some acc
  | Some headerCell =>
      let header := toString (cellValue headerCell) in
      match ws R C with
      | Some c =>
          if existsb (Nat.eqb C) dateColumns && (cellType c =? "d")%string
          then
            match cellValue c with
            | CDate ref _ =>
                Some (obj_set row header (CStr (formatDate (dates ref))), false)
            | _ => None
            end
          else Some (obj_set row header (cellValue c), false)
      | None => Some (obj_set row header (CStr ""), isEmpty)
      end
  end.

(* The body of the outer loop: [finalData] after sheet row [R]. *)
Definition readRow (dateColumns : list nat) (finalData : list record) (R : nat)
  : option (list record) :=
  '(row, isEmpty) <- foldM (readColumn dateColumns R) (columnsOf range) ([], true) ;;
  Some (if isEmpty then finalData else finalData ++ [row]).

(* Lines 184-254 of readExcelFile, from the header row index on. *)
Definition readRows : option (list record) :=
  foldM (readRow (dateColumnsOf ws range headerRowIndex))
    (rowsBelow range headerRowIndex) [].

End ReadRows.

(* The labels the header row gives, each once, in column order. *)
Definition headerLabels (ws : worksheet) (range : sheetRange)
    (headerRowIndex : nat) : list string :=
  fold_left
    (fun labels C =>
       match ws headerRowIndex C with
       | Some headerCell =>
           let header := toString (cellValue headerCell) in
           if in_dec string_dec header labels then labels else labels ++ [header]
       | None => labels
       end)
    (columnsOf range) [].

(* Sheet row [R] has a cell object under some column that has a header. *)
Definition hasHeadedCell (ws : worksheet) (range : sheetRange)
    (headerRowIndex R : nat) : bool :=
  existsb
    (fun C =>
       match ws headerRowIndex C, ws R C with
       | Some _, Some _ => true
       | _, _ => false
       end)
    (columnsOf range).

(* Every cell typed 'd' holds a Date object. *)
Definition datesWellTyped (ws : worksheet) : Prop :=
  forall R C c, ws R C = Some c -> cellType c = "d"%string ->
                exists ref text, cellValue c = CDate ref text.

Definition plainNumeral (s : string) : Prop :=
  forallb (fun c => is_digit c || Ascii.eqb c "." || Ascii.eqb c "-")
    (list_ascii_of_string s) = true.

(* [rec] is the record the inner loop builds for sheet row [R], a row that
   is kept. *)
Definition recordOf (dates : nat -> dateFields) (ws : worksheet)
    (range : sheetRange) (headerRowIndex : nat) (dateColumns : list nat)
    (R : nat) (rec : record) : Prop :=
  foldM (readColumn dates ws headerRowIndex dateColumns R) (columnsOf range) ([], true)
  = Some (rec, false).

(** ** A sample worksheet *)

Definition textCell (s : string) : option sheetCell :=
  Some {| cellType := "s"; cellValue := CStr s |}.

Definition sampleSheet : worksheet :=
  fun r c =>
    match r, c with
    | 0, 0 => textCell "Claim ID"
    | 0, 1 => textCell "Amt"
    | 0, 2 => textCell "Date"
    | 1, 0 => textCell "X"
    | 1, 1 => Some {| cellType := "n"; cellValue := CNum (Fin 80) |}
    | 1, 2 => Some {| cellType := "d"; cellValue := CDate 1 "Tue Mar 05 2024" |}
    | 2, 3 => textCell "note"
    | 3, 0 => textCell "Y"
    | _, _ => None
    end.

Definition sampleRange : sheetRange := {| s_r := 0; s_c := 0; e_r := 3; e_c := 3 |}.

Definition sampleDates (ref : nat) : dateFields :=
  {| getDate := 5; getMonth := 2; getFullYear := 2024;
     getHours := 0; getMinutes := 0; getSeconds := 0 |}.

(** * Properties *)

(** ** Worked examples *)

Example parseFloat_plain : parseFloat "30.25" = Fin (121 # 4).
Proof. reflexivity. Qed.
Example parseFloat_suffix : parseFloat "  12.5abc" = Fin (25 # 2).
Proof. reflexivity. Qed.
Example parseFloat_exponent : parseFloat "-1.5e2x" = Fin (-150 # 1).
Proof. reflexivity. Qed.
Example parseFloat_currency : parseFloat "$100" = NaN.
Proof. reflexivity. Qed.
Example parseFloat_dot : parseFloat "." = NaN.
Proof. reflexivity. Qed.
Example parseFloat_trailing_dot : parseFloat "5.e" = Fin 5.
Proof. reflexivity. Qed.
Example isNaN_examples :
  map isNaN ["12"; " 1.5 "; ""; "abc"; "1e5"; "1e"; "0x1F"; "12/03/2024"; "-.5"; "Infinity"; "1,000"]
  = [false; false; false; true; false; true; false; true; false; false; true].
Proof. reflexivity. Qed.
Example matches_date_examples :
  map matches_date ["12/03/2024"; "1-2-24"; "1.2.3"; "123/1/2024"; "12/03/2024 "; "12/03/20245"]
  = [true; true; false; false; false; false].
Proof. reflexivity. Qed.
Example number_to_string_examples :
  map number_to_string [Fin 7; Fin (121 # 4); Fin (-41 # 2); Fin 0; Fin (1 # 10); PInf]
  = ["7"; "30.25"; "-20.5"; "0"; "0.1"; "Infinity"].
Proof. reflexivity. Qed.
Example includes_examples :
  map (includes "claim id") ["id"; "claim"; "m i"; "amt"; ""] = [true; true; true; false; true].
Proof. reflexivity. Qed.

Example createRemittanceMapping_sourceA :
  remittanceAmtSumByID (createRemittanceMapping sourceA "ID" (Some "Amount"))
  = [("A", Fin (243 # 4)); ("B", Fin 3)].
Proof. reflexivity. Qed.

Example enrichRow_example :
  enrichRow "Id" [("A", Fin (243 # 4))] [("Id", CStr "A"); ("Amt", CNum (Fin 100))]
  = [("Id", CStr "A"); ("Amt", CNum (Fin 100));
     ("Remit Amt", CNum (Fin (243 # 4))); ("Rejected Amount", CNum (Fin (157 # 4)))].
Proof. reflexivity. Qed.

Example scores_sampleGrid :
  scanRows sampleGrid (firstn 3 sampleGrid) 0 [] =
  Some [ {| rowIndex := 0; score := Fin (33 # 1000) |};
         {| rowIndex := 1; score := PInf |};
         {| rowIndex := 2; score := Fin 1 |} ].
Proof. vm_compute. reflexivity. Qed.

Example findHeaderRow_sampleGrid : findHeaderRow sampleGrid defaultMaxRows = Some 1.
Proof. vm_compute. reflexivity. Qed.

(** ** Facts about numbers *)

Section NumberFacts.

Local Open Scope Q_scope.

#[local] Arguments Qred : simpl never.
#[local] Arguments Qplus : simpl never.
#[local] Arguments Qopp : simpl never.
#[local] Arguments Qmult : simpl never.
#[local] Arguments Qdiv : simpl never.
#[local] Arguments Qle_bool : simpl never.
#[local] Arguments Qeq_bool : simpl never.
#[local] Arguments Qsign : simpl never.

Lemma Qsign_pos (q : Q) : 0 < q -> Qsign q = Gt.
Proof. intros H. unfold Qsign. now apply Qgt_alt. Qed.

Lemma Qsign_zero (q : Q) : q == 0 -> Qsign q = Eq.
Proof. intros H. unfold Qsign. now apply Qeq_alt. Qed.

Lemma Qle_bool_false (a b : Q) : Qle_bool a b = false <-> b < a.
Proof.
  split; intros H.
  - apply Qnot_le_lt. intros Hle. apply Qle_bool_iff in Hle. congruence.
  - destruct (Qle_bool a b) eqn:E; [|reflexivity].
    apply Qle_bool_iff in E. lra.
Qed.

Lemma ltb_Fin (a b : Q) : ltb (Fin a) (Fin b) = true <-> a < b.
Proof.
  simpl. rewrite negb_true_iff. apply Qle_bool_false.
Qed.

Lemma ltb_Fin_false (a b : Q) : ltb (Fin a) (Fin b) = false <-> b <= a.
Proof.
  simpl. rewrite negb_false_iff. apply Qle_bool_iff.
Qed.

(* On scores the comparator of the sort is positive exactly when its first
   argument has the smaller score. *)
Lemma ltb_sub_pos (x y : number) :
  nonneg x -> nonneg y -> ltb zero (sub y x) = ltb x y.
Proof.
  destruct x as [a| | |], y as [b| | |]; simpl; try tauto; intros Ha Hb.
  - destruct (Qle_bool b a) eqn:E.
    + apply Qle_bool_iff in E.
      apply negb_false_iff, Qle_bool_iff.
      rewrite !Qred_correct. lra.
    + apply Qle_bool_false in E.
      apply negb_true_iff, Qle_bool_false.
      rewrite !Qred_correct. lra.
Qed.

Lemma ltb_false_le (x y : number) :
  nonneg x -> nonneg y -> ltb x y = false -> le y x.
Proof.
  destruct x as [a| | |], y as [b| | |]; simpl; try tauto; try discriminate.
  intros _ _ H. apply negb_false_iff, Qle_bool_iff in H. exact H.
Qed.

Lemma le_trans (x y z : number) : le x y -> le y z -> le x z.
Proof.
  destruct x as [a| | |], y as [b| | |], z as [c| | |]; simpl; try tauto.
  intros; lra.
Qed.

Lemma le_refl (x : number) : nonneg x -> le x x.
Proof. destruct x; simpl; try tauto. intros; lra. Qed.

Lemma le_ltb_false (x y : number) : le x y -> ltb y x = false.
Proof.
  destruct x as [a| | |], y as [b| | |]; simpl; try tauto.
  intros H. now apply negb_false_iff, Qle_bool_iff.
Qed.


Lemma nonneg_add (x y : number) : nonneg x -> nonneg y -> nonneg (add x y).
Proof.
  destruct x as [a| | |], y as [b| | |]; simpl; try tauto.
  intros. rewrite Qred_correct. lra.
Qed.

Lemma nonneg_mul_const (x : number) (c : Q) :
  0 < c -> nonneg x -> nonneg (mul x (Fin c)).
Proof.
  intros Hc. destruct x as [a| | |]; simpl; try tauto.
  - intros Ha. rewrite Qred_correct. nra.
  - intros _. now rewrite (Qsign_pos _ Hc).
Qed.

Lemma inject_nat_nonneg (n : nat) : 0 <= inject_Z (Z.of_nat n).
Proof.
  unfold Qle; simpl. lia.
Qed.

Lemma inject_nat_pos (n : nat) : (0 < n)%nat -> 0 < inject_Z (Z.of_nat n).
Proof.
  intros H. unfold Qlt; simpl. lia.
Qed.

Lemma div_nat_pos (a b : nat) :
  (0 < b)%nat ->
  div (of_nat a) (of_nat b) =
  Fin (Qred (inject_Z (Z.of_nat a) / inject_Z (Z.of_nat b))).
Proof.
  intros Hb. unfold div, of_nat.
  now rewrite (Qsign_pos _ (inject_nat_pos _ Hb)).
Qed.

Lemma div_nat_zero (a : nat) :
  (0 < a)%nat -> div (of_nat a) (of_nat 0) = PInf.
Proof.
  intros Ha. unfold div, of_nat.
  change (Qsign (inject_Z (Z.of_nat 0))) with Eq.
  now rewrite (Qsign_pos _ (inject_nat_pos _ Ha)).
Qed.

Lemma nonneg_div_nat (a b : nat) :
  (0 < a \/ 0 < b)%nat -> nonneg (div (of_nat a) (of_nat b)).
Proof.
  intros H. destruct (Nat.eq_dec b 0) as [->|Hb].
  - rewrite div_nat_zero by lia. exact I.
  - rewrite div_nat_pos by lia. simpl. rewrite Qred_correct.
    apply Qle_shift_div_l.
    + apply inject_nat_pos. lia.
    + rewrite Qmult_0_l. apply inject_nat_nonneg.
Qed.

Lemma nonneg_min_one (x : number) : nonneg x -> nonneg (JsNumber.min x one).
Proof.
  destruct x as [a| | |]; try (simpl; tauto).
  - intros Ha. unfold JsNumber.min, ltb, one.
    destruct (Qle_bool a 1); simpl in *; [assumption|lra].
  - intros _. simpl. lra.
Qed.


End NumberFacts.

(** ** The two amount parsers *)

(** C1. The claim is that the parse of the Aggregator (lines 50-62 of
    createRemittanceMapping) and the parse giving [originalAmt] in
    processMatchedData (line 21) return the same number for every cell.
    On the text ["$100"] the first strips the currency sign and returns 100,
    the second calls [parseFloat] on the raw text and returns 0. *)
Theorem amount_parsers_disagree :
  parseRemittanceAmount (CStr "$100") = Fin 100
  /\ parseOriginalAmt (CStr "$100") = Fin 0.
Proof. split; reflexivity. Qed.

Example amount_parsers_disagree_thousands :
  parseRemittanceAmount (CStr "1,000.50") = Fin (2001 # 2)
  /\ parseOriginalAmt (CStr "1,000.50") = Fin 1.
Proof. split; reflexivity. Qed.

Lemma amount_parsers_agree_on_numbers (n : number) :
  truthy n = true -> parseRemittanceAmount (CNum n) = parseOriginalAmt (CNum n).
Proof.
  intros H. unfold parseOriginalAmt, or_zero; simpl. now rewrite H.
Qed.

(** ** The uniqueness feature *)

(** C2. The claim is that uniquenessRatio counts the distinct texts of the
    non-empty cells only and is 0 on a row without non-empty cells.  On the
    blank row ['', ''] the code divides the set size 1 by 0 and yields
    Infinity; on ['a', ''] it counts the empty text too and yields 2. *)
Theorem uniquenessRatio_blank_row :
  uniquenessRatio [CStr ""; CStr ""] = PInf
  /\ uniquenessRatio_spec [CStr ""; CStr ""] = Fin 0
  /\ uniquenessRatio [CStr "a"; CStr ""] = Fin 2
  /\ uniquenessRatio_spec [CStr "a"; CStr ""] = Fin 1.
Proof. repeat split; reflexivity. Qed.

(* A row without a non-empty cell always gets the infinite ratio. *)
Lemma uniqueValues_nonempty (r : row) : r <> [] -> (0 < List.length (uniqueValues r))%nat.
Proof.
  unfold uniqueValues. intros Hr.
  assert (H : forall l (s : set (option string)),
             (0 < List.length s \/ l <> [])%nat ->
             (0 < List.length
                    (fold_left (fun s v => set_add option_string_eq_dec v s) l s))%nat).
  { induction l as [|v l IH]; intros s Hs; simpl.
    - destruct Hs as [Hs|Hs]; [exact Hs | congruence].
    - apply IH. left.
      assert (Hin : set_In v (set_add option_string_eq_dec v s))
        by (apply set_add_intro2; reflexivity).
      destruct (set_add option_string_eq_dec v s); [destruct Hin | simpl; lia]. }
  apply H. right. destruct r; [congruence | discriminate].
Qed.

Lemma uniquenessRatio_infinite (r : row) :
  r <> [] -> filledCount r = 0%nat -> uniquenessRatio r = PInf.
Proof.
  intros Hr H0. unfold uniquenessRatio. rewrite H0.
  apply div_nat_zero. now apply uniqueValues_nonempty.
Qed.

(* What the code computes on the other rows: the distinct texts of all the
   cells, empty ones included, over the number of non-empty cells. *)
Lemma uniqueValues_length (r : row) :
  List.length (uniqueValues r) =
  List.length (nodup option_string_eq_dec (map lowerText r)).
Proof.
  unfold uniqueValues.
  assert (Hin : forall l s v,
             In v (fold_left (fun s v => set_add option_string_eq_dec v s) l s)
             <-> In v s \/ In v l).
  { induction l as [|x l IH]; intros s v; simpl; [tauto|].
    rewrite IH, set_add_iff. intuition. }
  assert (Hnd : forall l s, NoDup s ->
             NoDup (fold_left (fun s v => set_add option_string_eq_dec v s) l s)).
  { induction l as [|x l IH]; intros s Hs; simpl; [assumption|].
    apply IH. now apply set_add_nodup. }
  apply Permutation_length, NoDup_Permutation.
  - apply Hnd. constructor.
  - apply NoDup_nodup.
  - intros v. rewrite Hin, nodup_In. simpl. tauto.
Qed.

Lemma uniquenessRatio_value (r : row) :
  0 < filledCount r ->
  uniquenessRatio r =
  Fin (Qred (inject_Z (Z.of_nat (List.length (nodup option_string_eq_dec (map lowerText r))))
             / inject_Z (Z.of_nat (filledCount r)))).
Proof.
  intros H. unfold uniquenessRatio.
  now rewrite div_nat_pos, uniqueValues_length.
Qed.

(** ** The lookahead window *)

Lemma followingRows_eq (jsonData : grid) (r : nat) :
  followingRows jsonData r =
  firstn (Nat.min 4 (List.length jsonData - r - 2)) (skipn (r + 1) jsonData).
Proof.
  unfold followingRows, slice. f_equal. lia.
Qed.

Lemma followingRows_length (jsonData : grid) (r : nat) :
  List.length (followingRows jsonData r) = Nat.min 4 (List.length jsonData - r - 2).
Proof.
  rewrite followingRows_eq, length_firstn, length_skipn. lia.
Qed.

(** C3. The claim is that the lookahead window of row r is rows
    r+1 .. r+min(4, rowCount-r-1), so that it holds every following row when
    fewer than 5 follow.  The end index passed to [slice] is
    r + min(5, rowCount-r-1), which is exclusive: with two rows after row 0
    the window holds row 1 only, and with a single one it is empty and the
    score is 0. *)
Theorem followingRows_misses_last_row :
  followingRows threeRows 0 = [Some [CNum (Fin 1)]]
  /\ lookaheadWindow_spec threeRows 0 = [Some [CNum (Fin 1)]; Some [CNum (Fin 2)]]
  /\ followingRows (firstn 2 threeRows) 0 = []
  /\ evaluateConsistencyOfFollowingRows (firstn 2 threeRows) 0 = Some (Fin 0).
Proof. repeat split; reflexivity. Qed.

(** ** Matching *)



Section Matching.

Variable remittanceIds : idSet.
Variable submissionIdField : string.

Lemma findMatchingRecords_filter (submissionData : list record) :
  findMatchingRecords submissionData remittanceIds submissionIdField =
  (filter (isMatch remittanceIds submissionIdField) submissionData,
   filter (fun r => negb (isMatch remittanceIds submissionIdField r)) submissionData).
Proof.
  unfold findMatchingRecords.
  set (step := fun (acc : list record * list record) (r : record) => _).
  assert (H : forall data m u,
             fold_left step data (m, u) =
             ((m ++ filter (isMatch remittanceIds submissionIdField) data)%list,
              (u ++ filter (fun r => negb (isMatch remittanceIds submissionIdField r)) data)%list)).
  { induction data as [|r data IH]; intros m u; simpl.
    - now rewrite !app_nil_r.
    - subst step; cbv beta iota. fold (isMatch remittanceIds submissionIdField r).
      destruct (isMatch remittanceIds submissionIdField r); simpl; rewrite IH, <- app_assoc; reflexivity. }
  apply (H submissionData [] []).
Qed.

End Matching.

Lemma sameValueZero_number_text (n : number) (s : string) :
  sameValueZero (CNum n) (CStr s) = false /\ sameValueZero (CStr s) (CNum n) = false.
Proof. split; reflexivity. Qed.

Lemma same_refl (n : number) : same n n = true.
Proof.
  destruct n; simpl; try reflexivity. apply Qeq_bool_iff. reflexivity.
Qed.

Lemma sameValueZero_refl (v : cell) : sameValueZero v v = true.
Proof.
  destruct v as [| |b|n|s|d t]; simpl; try reflexivity.
  - now destruct b.
  - apply same_refl.
  - apply String.eqb_refl.
  - apply Nat.eqb_refl.
Qed.

(* Every source identifier is a member of the set built from the source. *)
Lemma has_makeIdSet (remittanceData : list record) (remittanceIdField : string)
    (r : record) :
  In r remittanceData ->
  has (makeIdSet remittanceData remittanceIdField) (prop r remittanceIdField) = true.
Proof.
  unfold makeIdSet. intros Hin.
  assert (Hkeep : forall data s v,
             has s v = true ->
             has (fold_left (fun s r =>
                               let v := prop r remittanceIdField in
                               if has s v then s else s ++ [v]) data s) v = true).
  { induction data as [|x data IH]; intros s v Hv; simpl; [assumption|].
    apply IH. destruct (has s (prop x remittanceIdField)); [assumption|].
    unfold has in *. rewrite existsb_app, Hv. reflexivity. }
  assert (Hgen : forall data s,
             In r data ->
             has (fold_left (fun s r =>
                               let v := prop r remittanceIdField in
                               if has s v then s else s ++ [v]) data s)
               (prop r remittanceIdField) = true);
    [|now apply Hgen].
  clear Hin. induction data as [|x data IH]; intros s Hin; [destruct Hin|].
  destruct Hin as [->|Hin]; simpl.
  - apply Hkeep. destruct (has s (prop r remittanceIdField)) eqn:E; [assumption|].
    unfold has. rewrite existsb_app. simpl.
    now rewrite sameValueZero_refl, orb_true_r.
  - now apply IH.
Qed.

(* The end-to-end run of the specification. *)
Example reconcile_end_to_end :
  let source := [ [("ID", CStr "X"); ("Amt", CNum (Fin 50))] ] in
  let target := [ [("Claim ID", CStr "X"); ("Amt", CNum (Fin 80))];
                  [("Claim ID", CStr "Y"); ("Amt", CNum (Fin 10))] ] in
  let sums := remittanceAmtSumByID (createRemittanceMapping source "ID" (Some "Amt")) in
  let (matchedRows, unmatchedRows) :=
    findMatchingRecords target (makeIdSet source "ID") "Claim ID" in
  processMatchedData matchedRows "Claim ID" sums
  = [ [("Claim ID", CStr "X"); ("Amt", CNum (Fin 80));
       ("Remit Amt", CNum (Fin 50)); ("Rejected Amount", CNum (Fin 30))] ]
  /\ unmatchedRows = [ [("Claim ID", CStr "Y"); ("Amt", CNum (Fin 10))] ].
Proof. split; reflexivity. Qed.


(** ** Objects: reading after writing *)

Section ObjectFacts.

Context {V : Type}.

Lemma obj_get_set_same (o : object V) (k : string) (v : V) :
  obj_get (obj_set o k v) k = Some v.
Proof.
  induction o as [|[k' v'] o IH]; simpl.
  - now rewrite String.eqb_refl.
  - destruct (String.eqb_spec k' k) as [->|Hne]; simpl.
    + now rewrite String.eqb_refl.
    + apply String.eqb_neq in Hne. now rewrite Hne.
Qed.

Lemma obj_get_set_other (o : object V) (k k' : string) (v : V) :
  k <> k' -> obj_get (obj_set o k v) k' = obj_get o k'.
Proof.
  intros Hne. induction o as [|[k0 v0] o IH]; simpl.
  - apply String.eqb_neq in Hne. now rewrite Hne.
  - destruct (String.eqb_spec k0 k) as [->|Hne0]; simpl.
    + apply String.eqb_neq in Hne. now rewrite Hne.
    + now rewrite IH.
Qed.

Lemma obj_get_None (o : object V) (k : string) :
  obj_get o k = None <-> ~ In k (keys o).
Proof.
  induction o as [|[k' v'] o IH]; simpl.
  - tauto.
  - destruct (String.eqb_spec k' k) as [->|Hne].
    + split; [discriminate | tauto].
    + rewrite IH. tauto.
Qed.




End ObjectFacts.

(** ** Aggregation *)

Section Aggregation.

Variable remittanceIdField : string.
Variable amtFieldName : option string.






End Aggregation.


Example aggregate_mixedIds :
  remittanceAmtSumByID (createRemittanceMapping mixedIds "ID" (Some "Amt"))
  = [("7", Fin 3)]
  /\ aggregate_spec mixedIds "ID" (Some "Amt") (CNum (Fin 7)) = Fin 1
  /\ aggregate_spec mixedIds "ID" (Some "Amt") (CStr "7") = Fin 2.
Proof. repeat split; reflexivity. Qed.



(* On finite amounts the fold is the sum of the rationals. *)
Lemma sumAmounts_finite (qs : list Q) :
  eqv (sumAmounts (map Fin qs)) (Fin (fold_left Qplus qs 0%Q)).
Proof.
  unfold sumAmounts, zero.
  assert (H : forall a b, (a == b)%Q ->
              eqv (fold_left add (map Fin qs) (Fin a)) (Fin (fold_left Qplus qs b))).
  { induction qs as [|q qs IH]; intros a b Hab; cbn [fold_left map add].
    - exact Hab.
    - apply IH. rewrite Qred_correct. now rewrite Hab. }
  apply H. reflexivity.
Qed.

(** ** Enrichment *)

Lemma indexed_cons {A : Type} (i : nat) (x : A) (l : list A) :
  indexed i (x :: l) = (i, x) :: indexed (S i) l.
Proof. reflexivity. Qed.






Lemma findIndex_None {A : Type} (p : A -> bool) (l : list A) :
  findIndex p l = None -> forall x, In x l -> p x = false.
Proof.
  induction l as [|y l IH]; simpl; intros H x Hx.
  - destruct Hx.
  - destruct (p y) eqn:Py; [discriminate|].
    destruct (findIndex p l); [discriminate|].
    destruct Hx as [<-|Hx]; [assumption | now apply IH].
Qed.

Section Enrichment.

Variable newRow : record.
Variable amtIndex : option nat.
Variables remitAmtSum rejectedAmount : number.

Hypothesis keys_unique : NoDup (keys newRow).



End Enrichment.



Example enrichRow_alreadyEnriched :
  enrichRow "Id" sumsA alreadyEnriched
  = [("Id", CStr "A"); ("Amt", CNum (Fin 100)); ("Remit Amt", CNum (Fin 5));
     ("Rejected Amount", CNum (Fin (157 # 4)))].
Proof. reflexivity. Qed.




(** ** Scores are non-negative *)

Lemma length_pos {A : Type} (l : list A) : l <> [] -> 0 < List.length l.
Proof. destruct l; [congruence | simpl; lia]. Qed.

Lemma evaluateConsistency_nonneg (jsonData : grid) (i : nat) (v : number) :
  evaluateConsistencyOfFollowingRows jsonData i = Some v -> nonneg v.
Proof.
  unfold evaluateConsistencyOfFollowingRows.
  destruct (List.length jsonData <=? i + 1).
  - intros H; inversion H; subst. simpl. apply Qle_refl.
  - cbv zeta. destruct (List.length (followingRows jsonData i) =? 0).
    + intros H; inversion H; subst. simpl. apply Qle_refl.
    + destruct (nth i jsonData None) as [hr|]; simpl; [|discriminate].
      destruct (countConsistent hr 0 (followingRows jsonData i) 0) as [c|];
        simpl; [|discriminate].
      intros H; inversion H; subst.
      destruct (0 <? List.length hr) eqn:E.
      * apply Nat.ltb_lt in E. apply nonneg_div_nat. now right.
      * simpl. apply Qle_refl.
Qed.

Lemma weightedScore_nonneg (jsonData : grid) (i : nat) (r : row) (w : number) :
  r <> [] -> weightedScore jsonData i r = Some w -> nonneg w.
Proof.
  intros Hr. unfold weightedScore.
  destruct (evaluateConsistencyOfFollowingRows jsonData i) as [c|] eqn:E;
    simpl; [|discriminate].
  intros H; inversion H; subst. clear H.
  assert (Hlen := length_pos r Hr).
  repeat apply nonneg_add; apply nonneg_mul_const; try reflexivity.
  - apply nonneg_div_nat. now right.
  - apply nonneg_div_nat. now right.
  - apply nonneg_min_one. apply nonneg_div_nat. now right.
  - apply nonneg_div_nat. left. now apply uniqueValues_nonempty.
  - now apply (evaluateConsistency_nonneg jsonData i).
Qed.

Lemma applyPenalties_nonneg (r : row) (w : number) :
  nonneg w -> nonneg (applyPenalties r w).
Proof.
  intros Hw. unfold applyPenalties.
  destruct (hasForbiddenWords r), (hasOnlyOneValue r);
    repeat apply nonneg_mul_const; try reflexivity; assumption.
Qed.

Lemma rowScore_nonneg (jsonData : grid) (i : nat) (r : row) (s : number) :
  r <> [] -> rowScore jsonData i r = Some s -> nonneg s.
Proof.
  intros Hr. unfold rowScore.
  destruct (weightedScore jsonData i r) as [w|] eqn:E; simpl; [|discriminate].
  intros H; inversion H; subst.
  apply applyPenalties_nonneg. now apply (weightedScore_nonneg jsonData i r).
Qed.

(** ** The scan *)

Lemma scanRows_entries (jsonData : grid) (rows : list (option row)) :
  forall (index : nat) (acc : list scoredRow),
    scanRows jsonData rows index acc =
    option_map (app acc) (entries jsonData rows index).
Proof.
  induction rows as [|[[|c r]|] rows IH]; intros index acc; simpl.
  - now rewrite app_nil_r.
  - apply IH.
  - destruct (rowScore jsonData index (c :: r)) as [s|]; simpl; [|reflexivity].
    rewrite IH.
    destruct (entries jsonData rows (S index)) as [tl|]; simpl; [|reflexivity].
    now rewrite <- app_assoc.
  - apply IH.
Qed.

Lemma entries_sound (jsonData : grid) (rows : list (option row)) :
  forall (start : nat) (rs : list scoredRow),
    entries jsonData rows start = Some rs ->
    Forall (entryOf jsonData rows start) rs
    /\ Forall (fun e => start <= rowIndex e) rs.
Proof.
  induction rows as [|o rows IH]; intros start rs H.
  - inversion H; subst. split; constructor.
  - assert (Hshift : forall rs', entries jsonData rows (S start) = Some rs' ->
              Forall (entryOf jsonData (o :: rows) start) rs'
              /\ Forall (fun e => S start <= rowIndex e) rs').
    { intros rs' H'. destruct (IH _ _ H') as [Hs Hge]. split; [|exact Hge].
      rewrite Forall_forall in *. intros e He.
      destruct (Hs e He) as (Hle & r & Hn & Hr & Hsc).
      split; [lia|]. exists r. repeat split; try assumption.
      replace (rowIndex e - start) with (S (rowIndex e - S start)) by lia.
      exact Hn. }
    destruct o as [[|c r]|]; simpl in H.
    + destruct (Hshift _ H) as [Hs Hge]. split; [exact Hs|].
      eapply Forall_impl; [|exact Hge]. simpl; intros; lia.
    + destruct (rowScore jsonData start (c :: r)) as [s|] eqn:Es; simpl in H;
        [|discriminate].
      destruct (entries jsonData rows (S start)) as [tl|] eqn:Et; simpl in H;
        [|discriminate].
      inversion H; subst. destruct (Hshift _ eq_refl) as [Hs Hge].
      split; constructor; simpl.
      * unfold entryOf; simpl. split; [lia|]. exists (c :: r).
        rewrite Nat.sub_diag. simpl.
        repeat split; [discriminate | assumption].
      * exact Hs.
      * lia.
      * eapply Forall_impl; [|exact Hge]. simpl; intros; lia.
    + destruct (Hshift _ H) as [Hs Hge]. split; [exact Hs|].
      eapply Forall_impl; [|exact Hge]. simpl; intros; lia.
Qed.

Lemma entries_sorted (jsonData : grid) (rows : list (option row)) :
  forall (start : nat) (rs : list scoredRow),
    entries jsonData rows start = Some rs ->
    StronglySorted indexBefore rs.
Proof.
  induction rows as [|o rows IH]; intros start rs H.
  - inversion H; subst. constructor.
  - destruct o as [[|c r]|]; simpl in H; try (now apply (IH (S start))).
    destruct (rowScore jsonData start (c :: r)) as [s|]; simpl in H; [|discriminate].
    destruct (entries jsonData rows (S start)) as [tl|] eqn:Et; simpl in H;
      [|discriminate].
    inversion H; subst. constructor.
    + now apply (IH (S start)).
    + destruct (entries_sound jsonData rows (S start) tl Et) as [_ Hge].
      eapply Forall_impl; [|exact Hge]. unfold indexBefore; simpl; intros; lia.
Qed.

Lemma entries_complete (jsonData : grid) (rows : list (option row)) :
  forall (start : nat) (rs : list scoredRow),
    entries jsonData rows start = Some rs ->
    forall (k : nat) (r : row),
      nth_error rows k = Some (Some r) -> r <> [] ->
      exists s, rowScore jsonData (start + k) r = Some s
                /\ In {| rowIndex := start + k; score := s |} rs.
Proof.
  induction rows as [|o rows IH]; intros start rs H k r Hk Hr.
  - destruct k; discriminate.
  - assert (Hshift : forall rs' k',
              entries jsonData rows (S start) = Some rs' ->
              nth_error rows k' = Some (Some r) ->
              exists s, rowScore jsonData (start + S k') r = Some s
                        /\ In {| rowIndex := start + S k'; score := s |} rs').
    { intros rs' k' H' Hk'. rewrite Nat.add_succ_r.
      apply (IH (S start) rs' H' k' r Hk' Hr). }
    destruct o as [[|c r0]|]; simpl in H.
    + destruct k as [|k]; simpl in Hk.
      * inversion Hk; subst. congruence.
      * now apply Hshift.
    + destruct (rowScore jsonData start (c :: r0)) as [s|] eqn:Es; simpl in H;
        [|discriminate].
      destruct (entries jsonData rows (S start)) as [tl|] eqn:Et; simpl in H;
        [|discriminate].
      inversion H; subst.
      destruct k as [|k]; simpl in Hk.
      * inversion Hk; subst. exists s. rewrite Nat.add_0_r. split; [assumption|].
        now left.
      * destruct (Hshift tl k eq_refl Hk) as (s' & Hs' & Hin).
        exists s'. split; [assumption | now right].
    + destruct k as [|k]; simpl in Hk.
      * discriminate.
      * now apply Hshift.
Qed.

(** ** The sort and its head *)

Lemma ltb_le (x y : number) : ltb x y = true -> le x y.
Proof.
  destruct x as [a| | |], y as [b| | |]; simpl; try discriminate; try tauto.
  intros H. apply negb_true_iff, Qle_bool_false in H. now apply Qlt_le_weak.
Qed.

Lemma firstMax_In (l : list scoredRow) (b : scoredRow) :
  firstMax l = Some b -> In b l.
Proof.
  revert b. induction l as [|x l IH]; intros b H; simpl in H.
  - discriminate.
  - destruct (firstMax l) as [y|].
    + destruct (ltb (score x) (score y)); inversion H; subst.
      * right. now apply IH.
      * now left.
    + inversion H; subst. now left.
Qed.

Lemma firstMax_None (l : list scoredRow) : firstMax l = None -> l = [].
Proof.
  destruct l as [|x l]; simpl; [reflexivity|].
  destruct (firstMax l) as [y|]; [|discriminate].
  destruct (ltb (score x) (score y)); discriminate.
Qed.

Lemma hd_insertSorted (x : scoredRow) (l : list scoredRow) :
  hd_error (insertSorted x l) =
  Some (match l with
        | [] => x
        | y :: _ => if ltb zero (compareScores x y) then y else x
        end).
Proof.
  destruct l as [|y l]; [reflexivity|]. cbn [insertSorted].
  destruct (ltb zero (compareScores x y)); reflexivity.
Qed.

Lemma sortByScore_In (l : list scoredRow) (e : scoredRow) :
  In e (sortByScore l) <-> In e l.
Proof.
  assert (Hins : forall x s, In e (insertSorted x s) <-> e = x \/ In e s).
  { intros x s. induction s as [|y s IH]; cbn [insertSorted].
    - simpl. intuition.
    - destruct (ltb zero (compareScores x y)); simpl; [rewrite IH|]; intuition. }
  induction l as [|x l IH]; simpl; [tauto|].
  rewrite Hins, IH. intuition.
Qed.

(* The head of the sorted array is the first entry of the greatest score. *)
Lemma hd_sortByScore (l : list scoredRow) :
  scoresNonneg l -> hd_error (sortByScore l) = firstMax l.
Proof.
  induction l as [|x l IH]; intros Hnn; simpl; [reflexivity|].
  inversion Hnn as [|? ? Hx Hl]; subst.
  rewrite hd_insertSorted. specialize (IH Hl).
  destruct (sortByScore l) as [|y s] eqn:Es; simpl in IH; rewrite <- IH.
  - reflexivity.
  - unfold compareScores.
    rewrite ltb_sub_pos;
      [destruct (ltb (score x) (score y)); reflexivity | assumption |].
    assert (Hy : In y l) by (apply sortByScore_In; rewrite Es; now left).
    unfold scoresNonneg in Hl. rewrite Forall_forall in Hl. now apply Hl.
Qed.

Lemma firstMax_split (l : list scoredRow) :
  scoresNonneg l ->
  forall b, firstMax l = Some b ->
  exists l1 l2,
    l = l1 ++ b :: l2
    /\ Forall (fun e => ltb (score e) (score b) = true) l1
    /\ Forall (fun e => le (score e) (score b)) l2.
Proof.
  induction l as [|x l IH]; intros Hnn b H; simpl in H; [discriminate|].
  inversion Hnn as [|? ? Hx Hl]; subst.
  destruct (firstMax l) as [y|] eqn:Ey.
  - destruct (IH Hl y eq_refl) as (l1 & l2 & -> & H1 & H2).
    assert (Hy : nonneg (score y)).
    { unfold scoresNonneg in Hl. rewrite Forall_forall in Hl.
      apply Hl. apply in_or_app. right. now left. }
    destruct (ltb (score x) (score y)) eqn:Exy; inversion H; subst.
    + exists (x :: l1), l2. repeat split; [|assumption].
      now constructor.
    + exists [], (l1 ++ y :: l2). repeat split; [constructor|].
      assert (Hyx : le (score y) (score b)) by now apply ltb_false_le.
      apply Forall_app. split; [|constructor].
      * eapply Forall_impl; [|exact H1]. simpl. intros e He.
        apply le_trans with (score y); [now apply ltb_le | assumption].
      * assumption.
      * eapply Forall_impl; [|exact H2]. simpl. intros e He.
        now apply le_trans with (score y).
  - inversion H; subst. apply firstMax_None in Ey. subst.
    exists [], []. repeat split; constructor.
Qed.

Lemma StronglySorted_after {A : Type} (R : A -> A -> Prop) (l1 l2 : list A) (b : A) :
  StronglySorted R (l1 ++ b :: l2) -> Forall (R b) l2.
Proof.
  induction l1 as [|x l1 IH]; simpl; intros H; apply StronglySorted_inv in H.
  - tauto.
  - apply IH. tauto.
Qed.

(** ** Selection *)

Lemma nth_error_firstn_Some {A : Type} (n k : nat) (l : list A) (x : A) :
  nth_error (firstn n l) k = Some x <-> k < n /\ nth_error l k = Some x.
Proof.
  rewrite nth_error_firstn. destruct (k <? n) eqn:E.
  - apply Nat.ltb_lt in E. tauto.
  - apply Nat.ltb_ge in E. split; [discriminate | lia].
Qed.

Section Selection.

Variable jsonData : grid.
Variable maxRows : nat.
Variable rs : list scoredRow.

Hypothesis scan :
  entries jsonData (firstn (Nat.min maxRows (List.length jsonData)) jsonData) 0
  = Some rs.

Lemma scan_entry (e : scoredRow) :
  In e rs ->
  exists r, scanned jsonData maxRows (rowIndex e) r
            /\ rowScore jsonData (rowIndex e) r = Some (score e).
Proof.
  intros He. destruct (entries_sound _ _ _ _ scan) as [Hs _].
  rewrite Forall_forall in Hs.
  destruct (Hs e He) as (_ & r & Hn & Hr & Hsc).
  rewrite Nat.sub_0_r in Hn. apply nth_error_firstn_Some in Hn.
  exists r. unfold scanned. tauto.
Qed.

Lemma scan_nonneg : scoresNonneg rs.
Proof.
  unfold scoresNonneg. rewrite Forall_forall. intros e He.
  destruct (scan_entry e He) as (r & (_ & _ & Hr) & Hsc).
  now apply (rowScore_nonneg jsonData (rowIndex e) r).
Qed.

Lemma scan_has (k : nat) (r : row) (s : number) :
  scanned jsonData maxRows k r -> rowScore jsonData k r = Some s ->
  In {| rowIndex := k; score := s |} rs.
Proof.
  intros (Hk & Hn & Hr) Hs.
  assert (Hw : nth_error (firstn (Nat.min maxRows (List.length jsonData)) jsonData) k
               = Some (Some r))
    by (apply nth_error_firstn_Some; tauto).
  destruct (entries_complete _ _ _ _ scan k r Hw Hr) as (s' & Hs' & Hin).
  simpl in Hs', Hin. congruence.
Qed.

(* The first maximum of the scan dominates every scored row, strictly so
   the rows before it. *)
Lemma scan_firstMax (b : scoredRow) :
  firstMax rs = Some b ->
  forall (k : nat) (r : row) (s : number),
    scanned jsonData maxRows k r -> rowScore jsonData k r = Some s ->
    le s (score b) /\ (k < rowIndex b -> ltb s (score b) = true).
Proof.
  intros Hb k r s Hk Hs.
  destruct (firstMax_split rs scan_nonneg b Hb) as (l1 & l2 & Hrs & H1 & H2).
  assert (Hin := scan_has k r s Hk Hs).
  assert (Hsorted := entries_sorted _ _ _ _ scan).
  rewrite Hrs in Hin, Hsorted.
  rewrite Forall_forall in H1, H2.
  apply in_app_or in Hin. destruct Hin as [Hin|[Heq|Hin]].
  - specialize (H1 _ Hin). simpl in H1. split; [now apply ltb_le | auto].
  - subst b. simpl. split; [|lia].
    apply le_refl. destruct Hk as (_ & _ & Hr).
    now apply (rowScore_nonneg jsonData k r).
  - specialize (H2 _ Hin). simpl in H2. split; [assumption|].
    apply StronglySorted_after in Hsorted. rewrite Forall_forall in Hsorted.
    specialize (Hsorted _ Hin). unfold indexBefore in Hsorted. simpl in Hsorted.
    lia.
Qed.

End Selection.

(* What findHeaderRow returns, in terms of the scan. *)
Lemma findHeaderRow_scan (jsonData : grid) (maxRows h : nat) :
  findHeaderRow jsonData maxRows = Some h ->
  jsonData = [] /\ h = 0
  \/ exists rs,
       entries jsonData (firstn (Nat.min maxRows (List.length jsonData)) jsonData) 0
       = Some rs
       /\ h = match firstMax rs with
              | Some best => if ltb (score best) (Fin (1 # 5)) then 0 else rowIndex best
              | None => 0
              end.
Proof.
  unfold findHeaderRow.
  destruct (List.length jsonData =? 0) eqn:E.
  - apply Nat.eqb_eq in E. intros H; inversion H. left.
    split; [now apply length_zero_iff_nil | reflexivity].
  - cbv zeta. rewrite scanRows_entries.
    destruct (entries jsonData _ 0) as [rs|] eqn:Es; simpl; [|discriminate].
    intros H. right. exists rs. split; [reflexivity|].
    assert (Hnn := scan_nonneg jsonData maxRows rs Es).
    rewrite <- (hd_sortByScore rs Hnn).
    destruct (sortByScore rs) as [|best tl]; simpl.
    + now inversion H.
    + destruct (ltb (score best) (Fin (1 # 5))); now inversion H.
Qed.

(** ** Grids without absent rows *)

Lemma scanColumn_total (colIndex : nat) (dataRows : list (option row)) :
  Forall present dataRows ->
  forall types validCells,
    exists res, scanColumn colIndex dataRows types validCells = Some res.
Proof.
  induction 1 as [|o rows Ho _ IH]; intros types validCells; simpl.
  - eauto.
  - destruct o as [r|]; [|now elim Ho].
    destruct (nth_error r colIndex) as [c|]; [destruct (non_empty c)|]; apply IH.
Qed.

Lemma countConsistent_total (dataRows : list (option row)) (headerCells : list cell) :
  Forall present dataRows ->
  forall colIndex consistentColumns,
    exists n, countConsistent headerCells colIndex dataRows consistentColumns = Some n.
Proof.
  intros Hp. induction headerCells as [|h rest IH]; intros colIndex n; simpl.
  - eauto.
  - destruct (non_empty h); simpl; [|apply IH].
    destruct (scanColumn_total colIndex dataRows Hp [] 0) as ([types valid] & ->).
    simpl. apply IH.
Qed.

Lemma In_slice {A : Type} (s e : nat) (l : list A) (x : A) :
  In x (slice s e l) -> In x l.
Proof.
  unfold slice. intros H.
  rewrite <- (firstn_skipn s l). apply in_or_app. right.
  rewrite <- (firstn_skipn (e - s) (skipn s l)). apply in_or_app. now left.
Qed.

Lemma followingRows_present (jsonData : grid) (i : nat) :
  Forall present jsonData -> Forall present (followingRows jsonData i).
Proof.
  intros Hp. rewrite Forall_forall in *. intros o Ho. apply Hp.
  unfold followingRows in Ho. now apply In_slice in Ho.
Qed.

Lemma evaluateConsistency_total (jsonData : grid) (i : nat) :
  Forall present jsonData ->
  exists v, evaluateConsistencyOfFollowingRows jsonData i = Some v.
Proof.
  intros Hp. unfold evaluateConsistencyOfFollowingRows.
  destruct (List.length jsonData <=? i + 1) eqn:E; [eauto|].
  cbv zeta. destruct (List.length (followingRows jsonData i) =? 0); [eauto|].
  apply Nat.leb_gt in E.
  destruct (nth_error jsonData i) as [o|] eqn:En.
  - rewrite (nth_error_nth _ _ None En).
    assert (Ho : present o).
    { rewrite Forall_forall in Hp. apply Hp. now apply nth_error_In with i. }
    destruct o as [hr|]; [|now elim Ho]. simpl.
    destruct (countConsistent_total (followingRows jsonData i) hr
                (followingRows_present jsonData i Hp) 0 0) as (n & ->).
    simpl. eauto.
  - apply nth_error_None in En. lia.
Qed.

Lemma entries_total (jsonData : grid) (rows : list (option row)) :
  Forall present jsonData ->
  forall index, exists rs, entries jsonData rows index = Some rs.
Proof.
  intros Hp. induction rows as [|[[|c r]|] rows IH]; intros index; simpl;
    try solve [eauto].
  unfold rowScore, weightedScore.
  destruct (evaluateConsistency_total jsonData index Hp) as (v & ->). simpl.
  destruct (IH (S index)) as (rs & ->). simpl. eauto.
Qed.

Lemma entries_skipped (jsonData : grid) (rows : list (option row)) :
  Forall (fun o => o = None \/ o = Some []) rows ->
  forall index, entries jsonData rows index = Some [].
Proof.
  induction 1 as [|o rows Ho _ IH]; intros index; simpl; [reflexivity|].
  destruct Ho as [-> | ->]; apply IH.
Qed.

Lemma firstn_min_length {A : Type} (n : nat) (l : list A) :
  firstn (Nat.min n (List.length l)) l = firstn n l.
Proof.
  destruct (Nat.le_ge_cases n (List.length l)) as [H|H].
  - now rewrite Nat.min_l.
  - rewrite Nat.min_r by assumption.
    now rewrite firstn_all, firstn_all2.
Qed.

Lemma findHeaderRow_entries (jsonData : grid) (maxRows : nat) (rs : list scoredRow) :
  entries jsonData (firstn maxRows jsonData) 0 = Some rs ->
  findHeaderRow jsonData maxRows =
  Some (match hd_error (sortByScore rs) with
        | Some best => if ltb (score best) (Fin (1 # 5)) then 0 else rowIndex best
        | None => 0
        end).
Proof.
  intros Hs. unfold findHeaderRow.
  destruct (List.length jsonData =? 0) eqn:E.
  - apply Nat.eqb_eq, length_zero_iff_nil in E. subst.
    rewrite firstn_nil in Hs. inversion Hs; subst. reflexivity.
  - cbv zeta. rewrite scanRows_entries, firstn_min_length, Hs. simpl.
    destruct (sortByScore rs) as [|best tl]; simpl; [reflexivity|].
    destruct (ltb (score best) (Fin (1 # 5))); reflexivity.
Qed.

Lemma scanned_unique (jsonData : grid) (maxRows k : nat) (r r' : row) :
  scanned jsonData maxRows k r -> scanned jsonData maxRows k r' -> r = r'.
Proof.
  intros (_ & H & _) (_ & H' & _). congruence.
Qed.

Lemma firstMax_is_firstBest (jsonData : grid) (maxRows : nat)
    (rs : list scoredRow) (b : scoredRow) (k : nat) (r : row) (s : number) :
  entries jsonData (firstn (Nat.min maxRows (List.length jsonData)) jsonData) 0
  = Some rs ->
  firstMax rs = Some b ->
  scanned jsonData maxRows k r -> rowScore jsonData k r = Some s ->
  firstBest jsonData maxRows k s ->
  rowIndex b = k /\ score b = s.
Proof.
  intros Hscan Hb Hk Hs Hbest.
  destruct (scan_firstMax jsonData maxRows rs Hscan b Hb k r s Hk Hs) as [Hle Hlt].
  destruct (scan_entry jsonData maxRows rs Hscan b (firstMax_In rs b Hb))
    as (rb & Hkb & Hsb).
  destruct (Hbest _ _ _ Hkb Hsb) as [Hle' Hlt'].
  assert (Hidx : rowIndex b = k).
  { destruct (Nat.lt_trichotomy k (rowIndex b)) as [Hlt0|[Heq|Hgt]].
    - specialize (Hlt Hlt0). rewrite (le_ltb_false _ _ Hle') in Hlt. discriminate.
    - now symmetry.
    - specialize (Hlt' Hgt). rewrite (le_ltb_false _ _ Hle) in Hlt'. discriminate. }
  split; [assumption|].
  rewrite Hidx in Hkb, Hsb.
  rewrite (scanned_unique _ _ _ _ _ Hkb Hk) in Hsb. congruence.
Qed.

Lemma findHeaderRow_total (jsonData : grid) (maxRows : nat) :
  Forall present jsonData -> exists h, findHeaderRow jsonData maxRows = Some h.
Proof.
  intros Hp.
  destruct (entries_total jsonData (firstn maxRows jsonData) Hp 0) as (rs & Hs).
  rewrite (findHeaderRow_entries _ _ _ Hs). eauto.
Qed.


Example scores_smallGrid :
  entries smallGrid smallGrid 0 =
  Some [ {| rowIndex := 0; score := Fin (29 # 200) |};
         {| rowIndex := 1; score := Fin 1 |};
         {| rowIndex := 2; score := Fin (13 # 20) |};
         {| rowIndex := 3; score := Fin (7 # 20) |};
         {| rowIndex := 4; score := Fin (7 # 20) |} ].
Proof. vm_compute. reflexivity. Qed.



(** ** The result stays inside the scan window *)

(** C10. Whatever findHeaderRow returns is below max(1, min(10, rowCount)):
    it is 0 or the index of a scanned row.  It does return when no row slot
    of the grid is null or undefined, and it returns 0 for an empty grid and
    when every row of the window is absent or has zero columns. *)
Theorem findHeaderRow_within_window (jsonData : grid) :
  (forall h : nat,
      findHeaderRow jsonData defaultMaxRows = Some h ->
      h < Nat.max 1 (Nat.min 10 (List.length jsonData)))
  /\ (Forall present jsonData ->
      exists h, findHeaderRow jsonData defaultMaxRows = Some h)
  /\ (Forall (fun o => o = None \/ o = Some []) (firstn 10 jsonData) ->
      findHeaderRow jsonData defaultMaxRows = Some 0)
  /\ findHeaderRow [] defaultMaxRows = Some 0.
Proof.
  repeat split.
  - intros h Hh.
    destruct (findHeaderRow_scan _ _ _ Hh) as [[_ ->]|(rs & Hscan & ->)]; [lia|].
    destruct (firstMax rs) as [b|] eqn:Hb; [|lia].
    destruct (ltb (score b) (Fin (1 # 5))); [lia|].
    destruct (scan_entry _ _ _ Hscan b (firstMax_In rs b Hb)) as (r & (Hk & _) & _).
    unfold defaultMaxRows in Hk. lia.
  - intros Hp. now apply findHeaderRow_total.
  - intros Hskip. unfold defaultMaxRows.
    now rewrite (findHeaderRow_entries _ _ _ (entries_skipped jsonData _ Hskip 0)).
Qed.

Lemma findHeaderRow_within_window_witness :
  findHeaderRow smallGrid defaultMaxRows = Some 1
  /\ 1 < Nat.max 1 (Nat.min 10 (List.length smallGrid))
  /\ findHeaderRow [None; Some []; None] defaultMaxRows = Some 0.
Proof.
  assert (H : findHeaderRow smallGrid defaultMaxRows = Some 1) by (vm_compute; reflexivity).
  split; [exact H|]. split.
  - exact (proj1 (findHeaderRow_within_window smallGrid) 1 H).
  - apply (proj1 (proj2 (proj2 (findHeaderRow_within_window [None; Some []; None])))).
    repeat constructor; tauto.
Defined.

(** ** The noise penalty *)

Example scores_reportGrid :
  entries reportGrid reportGrid 0 =
  Some [ {| rowIndex := 0; score := Fin (9 # 250) |};
         {| rowIndex := 1; score := Fin (3 # 25) |} ]
  /\ findHeaderRow reportGrid defaultMaxRows = Some 0.
Proof. split; vm_compute; reflexivity. Qed.





(** ** The consistency score *)


Section ColumnScan.

Variable cells : list cell.




End ColumnScan.



Example consistency_sixRows :
  evaluateConsistencyOfFollowingRows sixRows 0 = Some (Fin (1 # 2))
  /\ consistencyScore_spec sixRows 0 = Fin 1
  /\ followingRows sixRows 0 = lookaheadWindow_spec sixRows 0.
Proof. repeat split; vm_compute; reflexivity. Qed.




(** * Further properties of the code *)

(** ** Column roles *)

Lemma find_first {A : Type} (p : A -> bool) (l : list A) (x : A) :
  find p l = Some x ->
  exists l1 l2, l = l1 ++ x :: l2 /\ p x = true
                /\ forall y, In y l1 -> p y = false.
Proof.
  induction l as [|y l IH]; simpl; [discriminate|].
  destruct (p y) eqn:Py.
  - intros H; inversion H; subst. exists [], l. repeat split; [assumption|].
    intros z [].
  - intros H. destruct (IH H) as (l1 & l2 & -> & Px & Hl1).
    exists (y :: l1), l2. repeat split; [assumption|].
    intros z [<-|Hz]; [assumption | now apply Hl1].
Qed.

Lemma toLowerCase_empty (s : string) : toLowerCase s = ""%string -> s = ""%string.
Proof. destruct s; [reflexivity | discriminate]. Qed.

Lemma includes_empty (t : string) : t <> ""%string -> includes "" t = false.
Proof. destruct t; [congruence | reflexivity]. Qed.


Lemma isTargetIdHeader_given (h : string) :
  isTargetIdHeader h = true -> fieldGiven (Some h) = Some h.
Proof.
  destruct h; [discriminate | reflexivity].
Qed.


(** X2. For any other role, identifyColumns returns no amount field, and an
    identifier field that is never undefined or empty: the first header
    whose lowercased text contains "claim" or equals "id", else the literal
    "Claim ID", which in that case is not one of the headers. *)
Theorem identifyColumns_submission (headers : list string) (fileType : string) :
  fileType <> "remittance"%string ->
  let c := identifyColumns headers fileType in
  amtFieldName c = None
  /\ exists i, idField c = Some i /\ i <> ""%string
               /\ ((exists l1 l2, headers = l1 ++ i :: l2
                                  /\ isTargetIdHeader i = true
                                  /\ forall h, In h l1 -> isTargetIdHeader h = false)
                   \/ (i = "Claim ID"%string
                       /\ ~ In "Claim ID"%string headers
                       /\ forall h, In h headers -> isTargetIdHeader h = false)).
Proof.
  intros Hft. cbv zeta. unfold identifyColumns.
  apply String.eqb_neq in Hft. rewrite Hft. cbn [amtFieldName idField].
  split; [reflexivity|].
  destruct (find isTargetIdHeader headers) as [f|] eqn:Ef.
  - destruct (find_some _ _ Ef) as [Hin Hp].
    exists f. unfold orElse. rewrite (isTargetIdHeader_given f Hp).
    repeat split.
    + intros ->. discriminate.
    + left. now apply find_first.
  - exists "Claim ID"%string. repeat split.
    + discriminate.
    + right. repeat split.
      * intros Hin. assert (H := find_none _ _ Ef _ Hin). discriminate H.
      * intros h Hh. now apply (find_none _ _ Ef).
Qed.

Lemma identifyColumns_submission_witness :
  "submission"%string <> "remittance"%string
  /\ idField (identifyColumns ["File No"; "Claim Ref"; "ID"]%string "submission")
     = Some "Claim Ref"%string.
Proof.
  split; [discriminate|].
  destruct (identifyColumns_submission ["File No"; "Claim Ref"; "ID"]%string "submission")
    as [_ _]; [discriminate | reflexivity].
Defined.

Lemma prop_missing (r : record) (k : string) :
  ~ In k (keys r) -> prop r k = CUndefined.
Proof.
  intros H. unfold prop. apply obj_get_None in H. now rewrite H.
Qed.

(** X3. When no target header contains "claim" or equals "id", the
    identifier field falls back to "Claim ID", which no record built on those
    headers has: every target identifier is undefined, and the target rows
    go all to matched when the source set holds undefined, all to unmatched
    otherwise. *)
Theorem fallback_all_or_nothing
    (headers : list string) (submissionData : list record) (remittanceIds : idSet) :
  (forall h, In h headers -> isTargetIdHeader h = false) ->
  (forall r k, In r submissionData -> In k (keys r) -> In k headers) ->
  findMatchingRecords submissionData remittanceIds
    (fieldKey (idField (identifyColumns headers "submission")))
  = if has remittanceIds CUndefined then (submissionData, [])
    else ([], submissionData).
Proof.
  intros Hnone Hkeys.
  assert (Hf : idField (identifyColumns headers "submission") = Some "Claim ID"%string).
  { simpl. destruct (find isTargetIdHeader headers) as [f|] eqn:Ef; [|reflexivity].
    destruct (find_some _ _ Ef) as [Hin Hp]. now rewrite (Hnone f Hin) in Hp. }
  rewrite Hf. simpl fieldKey. rewrite findMatchingRecords_filter.
  assert (Hundef : forall r, In r submissionData ->
                     isMatch remittanceIds "Claim ID" r = has remittanceIds CUndefined).
  { intros r Hr. unfold isMatch. rewrite prop_missing; [reflexivity|].
    intros Hin. assert (H := Hnone _ (Hkeys r _ Hr Hin)). discriminate H. }
  assert (Hall : forall b, (forall r, In r submissionData ->
                              isMatch remittanceIds "Claim ID" r = b) ->
                filter (isMatch remittanceIds "Claim ID") submissionData
                = (if b then submissionData else [])
                /\ filter (fun r => negb (isMatch remittanceIds "Claim ID" r)) submissionData
                   = (if b then [] else submissionData)).
  { intros b. induction submissionData as [|r data IH]; intros Hb.
    - destruct b; split; reflexivity.
    - simpl. rewrite (Hb r (or_introl eq_refl)).
      destruct (IH (fun r' k Hr' => Hkeys r' k (or_intror Hr'))
                   (fun r' Hr' => Hundef r' (or_intror Hr'))
                   (fun r' Hr' => Hb r' (or_intror Hr'))) as [H1 H2].
      rewrite H1, H2. destruct b; split; reflexivity. }
  destruct (Hall (has remittanceIds CUndefined) Hundef) as [-> ->].
  destruct (has remittanceIds CUndefined); reflexivity.
Qed.

Lemma fallback_all_or_nothing_witness :
  findMatchingRecords
    [ [("Ref", CStr "X"); ("Amt", CNum (Fin 80))];
      [("Ref", CStr "Y"); ("Amt", CNum (Fin 10))] ]%string
    [CStr "X"]
    (fieldKey (idField (identifyColumns ["Ref"; "Amt"]%string "submission")))
  = ([], [ [("Ref", CStr "X"); ("Amt", CNum (Fin 80))];
           [("Ref", CStr "Y"); ("Amt", CNum (Fin 10))] ]%string).
Proof.
  apply (fallback_all_or_nothing ["Ref"; "Amt"]%string
           [ [("Ref", CStr "X"); ("Amt", CNum (Fin 80))];
             [("Ref", CStr "Y"); ("Amt", CNum (Fin 10))] ]%string [CStr "X"]).
  - intros h [<-|[<-|[]]]; reflexivity.
  - intros r k [<-|[<-|[]]]; simpl; tauto.
Defined.


(** ** The three tables of createRemittanceMapping *)

Section Tables.

Variable remittanceIdField : string.
Variable amtFieldName : option string.





End Tables.

Lemma keys_obj_set {V : Type} (o : object V) (k : string) (v : V) :
  keys (obj_set o k v) =
  if in_dec string_dec k (keys o) then keys o else keys o ++ [k].
Proof.
  induction o as [|[k' v'] o IH]; simpl.
  - reflexivity.
  - destruct (String.eqb_spec k' k) as [->|Hne]; simpl.
    + destruct (string_dec k k); [|congruence].
      reflexivity.
    + rewrite IH. destruct (string_dec k' k); [congruence|].
      destruct (in_dec string_dec k (keys o)); reflexivity.
Qed.

Lemma keys_obj_set_NoDup {V : Type} (o : object V) (k : string) (v : V) :
  NoDup (keys o) -> NoDup (keys (obj_set o k v)).
Proof.
  intros H. rewrite keys_obj_set.
  destruct (in_dec string_dec k (keys o)) as [Hin|Hnin]; [assumption|].
  apply NoDup_app; [assumption | repeat constructor; intros [] |].
  intros x Hx [<-|[]]. contradiction.
Qed.






(** ** The identifier set and the whole run *)

Lemma same_sym (x y : number) : same x y = same y x.
Proof.
  destruct x as [a| | |], y as [b| | |]; simpl; try reflexivity.
  destruct (Qeq_bool a b) eqn:E, (Qeq_bool b a) eqn:E'; try reflexivity.
  - apply Qeq_bool_iff in E. symmetry in E. apply Qeq_bool_iff in E. congruence.
  - apply Qeq_bool_iff in E'. symmetry in E'. apply Qeq_bool_iff in E'. congruence.
Qed.

Lemma same_trans (x y z : number) :
  same x y = true -> same y z = true -> same x z = true.
Proof.
  destruct x as [a| | |], y as [b| | |], z as [c| | |]; simpl;
    try discriminate; try reflexivity.
  intros H1 H2. apply Qeq_bool_iff in H1, H2. apply Qeq_bool_iff.
  now rewrite H1.
Qed.

Lemma sameValueZero_sym (a b : cell) : sameValueZero a b = sameValueZero b a.
Proof.
  destruct a as [| |x|x|x|x t], b as [| |y|y|y|y u]; simpl; try reflexivity.
  - now destruct x, y.
  - apply same_sym.
  - apply String.eqb_sym.
  - apply Nat.eqb_sym.
Qed.

Lemma sameValueZero_trans (a b c : cell) :
  sameValueZero a b = true -> sameValueZero b c = true -> sameValueZero a c = true.
Proof.
  destruct a as [| |x|x|x|x t], b as [| |y|y|y|y u], c as [| |z|z|z|z w]; simpl;
    try discriminate; try reflexivity.
  - destruct x, y, z; simpl; congruence.
  - apply same_trans.
  - intros H1 H2. apply String.eqb_eq in H1, H2. apply String.eqb_eq. congruence.
  - intros H1 H2. apply Nat.eqb_eq in H1, H2. apply Nat.eqb_eq. congruence.
Qed.

Lemma has_trans (s : idSet) (v w : cell) :
  sameValueZero v w = true -> has s w = true -> has s v = true.
Proof.
  unfold has. intros Hvw Hw. apply existsb_exists in Hw.
  destruct Hw as (e & He & Hwe). apply existsb_exists. exists e.
  split; [assumption|]. now apply sameValueZero_trans with w.
Qed.

Lemma has_app (s t : idSet) (v : cell) : has (s ++ t) v = has s v || has t v.
Proof. unfold has. apply existsb_app. Qed.

Lemma makeIdSet_fold (remittanceIdField : string) (remittanceData : list record) :
  forall (s : idSet) (v : cell),
    distinctValues s ->
    has (fold_left (fun s r =>
                      if has s (prop r remittanceIdField) then s
                      else s ++ [prop r remittanceIdField]) remittanceData s) v
    = has s v
      || existsb (fun r => sameValueZero v (prop r remittanceIdField)) remittanceData
    /\ distinctValues
         (fold_left (fun s r =>
                       if has s (prop r remittanceIdField) then s
                       else s ++ [prop r remittanceIdField]) remittanceData s).
Proof.
  induction remittanceData as [|r data IH]; intros s v Hd.
  - simpl. rewrite orb_false_r. tauto.
  - cbn [fold_left existsb].
    destruct (has s (prop r remittanceIdField)) eqn:E.
    + destruct (IH s v Hd) as [-> Hd']. split; [|assumption].
      destruct (sameValueZero v (prop r remittanceIdField)) eqn:Ev; simpl;
        [|reflexivity].
      now rewrite (has_trans s v _ Ev E).
    + assert (Hd1 : distinctValues (s ++ [prop r remittanceIdField]))
        by now constructor.
      destruct (IH _ v Hd1) as [-> Hd']. split; [|assumption].
      rewrite has_app. unfold has at 2. simpl. rewrite orb_false_r.
      now rewrite orb_assoc.
Qed.


(** X6. The identifier set built in processFiles holds a value exactly when
    some source record bears the same value (SameValueZero) in the
    identifier field, and holds each value once. *)
Theorem makeIdSet_members (remittanceData : list record)
    (remittanceIdField : string) (v : cell) :
  has (makeIdSet remittanceData remittanceIdField) v
  = existsb (fun r => sameValueZero v (prop r remittanceIdField)) remittanceData
  /\ distinctValues (makeIdSet remittanceData remittanceIdField).
Proof.
  exact (makeIdSet_fold remittanceIdField remittanceData [] v distinct_nil).
Qed.




(** ** Enrichment keeps the record *)

Lemma In_keys_obj_set {V : Type} (o : object V) (k k' : string) (v : V) :
  In k (keys (obj_set o k' v)) <-> In k (keys o) \/ k = k'.
Proof.
  rewrite keys_obj_set.
  destruct (in_dec string_dec k' (keys o)) as [Hin|Hnin].
  - split; [tauto|]. intros [H| ->]; assumption.
  - rewrite in_app_iff. simpl. intuition.
Qed.

Section CopyHeader.

Variable newRow : record.
Variable amtIndex : option nat.
Variables remitAmtSum rejectedAmount : number.

Let step := copyHeader newRow amtIndex remitAmtSum rejectedAmount.

Lemma copyHeader_keys (acc : record) (index : nat) (header k : string) :
  In k (keys (step acc (index, header))) ->
  In k (keys acc) \/ k = header
  \/ k = "Remit Amt"%string \/ k = "Rejected Amount"%string.
Proof.
  unfold step, copyHeader.
  destruct (option_nat_eqb amtIndex index); rewrite ?In_keys_obj_set; tauto.
Qed.

Lemma copyHeader_keys_grow (acc : record) (index : nat) (header k : string) :
  In k (keys acc) \/ k = header -> In k (keys (step acc (index, header))).
Proof.
  unfold step, copyHeader.
  destruct (option_nat_eqb amtIndex index); rewrite ?In_keys_obj_set; tauto.
Qed.

Lemma copyHeader_NoDup (acc : record) (ih : nat * string) :
  NoDup (keys acc) -> NoDup (keys (step acc ih)).
Proof.
  destruct ih as [index header]. unfold step, copyHeader. intros H.
  destruct (option_nat_eqb amtIndex index); repeat apply keys_obj_set_NoDup;
    assumption.
Qed.

Lemma copyHeader_get (acc : record) (index : nat) (header k : string) :
  k <> "Remit Amt"%string -> k <> "Rejected Amount"%string ->
  obj_get (step acc (index, header)) k =
  if (header =? k)%string then Some (prop newRow header) else obj_get acc k.
Proof.
  intros H1 H2. unfold step, copyHeader.
  assert (Hset : obj_get (obj_set acc header (prop newRow header)) k =
                 if (header =? k)%string then Some (prop newRow header)
                 else obj_get acc k).
  { destruct (String.eqb_spec header k) as [->|Hne].
    - apply obj_get_set_same.
    - now apply obj_get_set_other. }
  destruct (option_nat_eqb amtIndex index); [|exact Hset].
  rewrite !obj_get_set_other by congruence. exact Hset.
Qed.

Lemma fold_copyHeader (ihs : list (nat * string)) :
  forall acc : record,
    NoDup (keys acc) ->
    let result := fold_left step ihs acc in
    NoDup (keys result)
    /\ (forall k, In k (keys acc) \/ In k (map snd ihs) -> In k (keys result))
    /\ (forall k, In k (keys result) ->
          In k (keys acc) \/ In k (map snd ihs)
          \/ k = "Remit Amt"%string \/ k = "Rejected Amount"%string)
    /\ (forall k, k <> "Remit Amt"%string -> k <> "Rejected Amount"%string ->
          obj_get result k =
          if in_dec string_dec k (map snd ihs) then Some (prop newRow k)
          else obj_get acc k).
Proof.
  induction ihs as [|[index header] ihs IH]; intros acc Hnd; cbv zeta.
  - simpl. repeat split; try tauto.
  - cbn [fold_left map snd].
    destruct (IH (step acc (index, header)) (copyHeader_NoDup acc _ Hnd))
      as (H1 & H2 & H3 & H4).
    split; [assumption|]. split; [|split].
    + intros k Hk. apply H2.
      destruct Hk as [Hk|[<-|Hk]]; [left | left | now right];
        apply copyHeader_keys_grow; tauto.
    + intros k Hk. destruct (H3 k Hk) as [Hk'|[Hk'|Hk']]; simpl; try tauto.
      apply copyHeader_keys in Hk'. simpl. intuition.
    + intros k Hk1 Hk2. rewrite (H4 k Hk1 Hk2), (copyHeader_get acc index header k Hk1 Hk2).
      destruct (in_dec string_dec k (map snd ihs)) as [Hin|Hnin].
      * destruct (in_dec string_dec k (header :: map snd ihs)) as [_|Hno];
          [reflexivity|]. exfalso. apply Hno. now right.
      * destruct (String.eqb_spec header k) as [->|Hne].
        -- destruct (in_dec string_dec k (k :: map snd ihs)) as [_|Hno];
             [reflexivity|]. exfalso. apply Hno. now left.
        -- destruct (in_dec string_dec k (header :: map snd ihs)) as [[Heq|Hin]|_];
             [congruence | contradiction | reflexivity].
Qed.

End CopyHeader.

Lemma map_snd_indexed {A : Type} (l : list A) :
  forall start, map snd (indexed start l) = l.
Proof.
  induction l as [|x l IH]; intros start; [reflexivity|].
  rewrite indexed_cons. simpl. now rewrite IH.
Qed.

(** X8. Whatever the record, enrichment yields a well-formed record (no
    label twice) that has every label of the original and, besides, at most
    "Remit Amt" and "Rejected Amount"; and every field other than those two
    keeps its value. *)
Theorem enrichRow_keeps_fields
    (submissionIdField : string) (remittanceAmtSumByID : object number) (r : record) :
  let result := enrichRow submissionIdField remittanceAmtSumByID r in
  NoDup (keys result)
  /\ (forall k, In k (keys r) -> In k (keys result))
  /\ (forall k, In k (keys result) ->
        In k (keys r) \/ k = "Remit Amt"%string \/ k = "Rejected Amount"%string)
  /\ (forall k, k <> "Remit Amt"%string -> k <> "Rejected Amount"%string ->
        prop result k = prop r k).
Proof.
  cbv zeta. unfold enrichRow.
  destruct (fold_copyHeader r (findIndex isAmtLabel (keys r))
              (remitAmtSumOf remittanceAmtSumByID (prop r submissionIdField))
              (rejectedAmountOf (parseOriginalAmt (prop r "Amt"))
                 (remitAmtSumOf remittanceAmtSumByID (prop r submissionIdField)))
              (indexed 0 (keys r)) [] (NoDup_nil _)) as (H1 & H2 & H3 & H4).
  rewrite map_snd_indexed in *. simpl in H2, H3.
  split; [assumption|]. split; [|split].
  - intros k Hk. apply H2. now right.
  - intros k Hk. destruct (H3 k Hk) as [[]|H]; exact H.
  - intros k Hk1 Hk2. unfold prop at 1. rewrite (H4 k Hk1 Hk2).
    destruct (in_dec string_dec k (keys r)) as [Hin|Hnin]; [reflexivity|].
    simpl. symmetry. now apply prop_missing.
Qed.

(** ** The whole run *)




(** ** Ranges of the features *)

#[local] Arguments Qred : simpl never.
#[local] Arguments Qplus : simpl never.
#[local] Arguments Qmult : simpl never.
#[local] Arguments Qdiv : simpl never.
#[local] Arguments Qle_bool : simpl never.

Lemma div_nat_unit (a b : nat) :
  a <= b -> 0 < b -> unitInterval (div (of_nat a) (of_nat b)).
Proof.
  intros Hab Hb. rewrite div_nat_pos by assumption. simpl.
  rewrite Qred_correct.
  assert (Hbq := inject_nat_pos b Hb).
  split.
  - apply Qle_shift_div_l; [assumption|]. rewrite Qmult_0_l. apply inject_nat_nonneg.
  - apply Qle_shift_div_r; [assumption|]. rewrite Qmult_1_l.
    rewrite <- Zle_Qle. lia.
Qed.

Lemma div_nat_le (a a' b : nat) :
  a <= a' -> 0 < b -> le (div (of_nat a) (of_nat b)) (div (of_nat a') (of_nat b)).
Proof.
  intros Ha Hb. rewrite !div_nat_pos by assumption. simpl.
  rewrite !Qred_correct.
  assert (Hbq := inject_nat_pos b Hb).
  unfold Qdiv. apply Qmult_le_compat_r.
  - rewrite <- Zle_Qle. lia.
  - apply Qlt_le_weak. now apply Qinv_lt_0_compat.
Qed.

Lemma filter_length_incl {A : Type} (p q : A -> bool) (l : list A) :
  (forall x, p x = true -> q x = true) ->
  List.length (filter p l) <= List.length (filter q l).
Proof.
  intros H. induction l as [|x l IH]; simpl; [lia|].
  destruct (p x) eqn:Px.
  - rewrite (H x Px). simpl. lia.
  - destruct (q x); simpl; lia.
Qed.

Lemma isTextCell_non_empty (c : cell) : isTextCell c = true -> non_empty c = true.
Proof.
  destruct c as [| |b|n|s|d t]; simpl; try discriminate.
  destruct s; [discriminate | reflexivity].
Qed.

Lemma countConsistent_bounds (dataRows : list (option row)) (headerCells : list cell) :
  forall colIndex n m,
    countConsistent headerCells colIndex dataRows n = Some m ->
    n <= m <= n + List.length headerCells.
Proof.
  induction headerCells as [|h rest IH]; intros colIndex n m H; simpl in H.
  - inversion H. simpl. lia.
  - destruct (non_empty h); simpl in H.
    + destruct (scanColumn colIndex dataRows [] 0) as [[types valid]|];
        simpl in H; [|discriminate].
      apply IH in H. simpl.
      destruct ((0 <? valid) && (List.length types <=? 2)); lia.
    + apply IH in H. simpl. lia.
Qed.

Lemma feature_ranges
    (jsonData : grid) (i : nat) (r : row) :
  r <> [] ->
  unitInterval (fillRate r)
  /\ unitInterval (textCellRatio r)
  /\ le (textCellRatio r) (fillRate r)
  /\ unitInterval (headerTermScore r)
  /\ forall v, evaluateConsistencyOfFollowingRows jsonData i = Some v ->
               unitInterval v.
Proof.
  intros Hr. assert (Hlen := length_pos r Hr).
  split; [|split; [|split; [|split]]].
  - apply div_nat_unit; [apply filter_length_le | assumption].
  - apply div_nat_unit; [apply filter_length_le | assumption].
  - apply div_nat_le; [|assumption].
    apply filter_length_incl. exact isTextCell_non_empty.
  - unfold headerTermScore. rewrite div_nat_pos by assumption.
    unfold JsNumber.min, ltb, one.
    destruct (Qle_bool _ 1) eqn:E; simpl.
    + apply Qle_bool_iff in E. split; [|assumption].
      rewrite Qred_correct. apply Qle_shift_div_l.
      * now apply inject_nat_pos.
      * rewrite Qmult_0_l. apply inject_nat_nonneg.
    + split; [discriminate | apply Qle_refl].
  - intros v. unfold evaluateConsistencyOfFollowingRows.
    destruct (List.length jsonData <=? i + 1).
    { intros H; inversion H; subst. simpl. split; [apply Qle_refl | discriminate]. }
    cbv zeta. destruct (List.length (followingRows jsonData i) =? 0).
    { intros H; inversion H; subst. simpl. split; [apply Qle_refl | discriminate]. }
    destruct (nth i jsonData None) as [hr|]; simpl; [|discriminate].
    destruct (countConsistent hr 0 (followingRows jsonData i) 0) as [c|] eqn:Ec;
      simpl; [|discriminate].
    intros H; inversion H; subst. apply countConsistent_bounds in Ec.
    destruct (0 <? List.length hr) eqn:E.
    + apply Nat.ltb_lt in E. apply div_nat_unit; lia.
    + simpl. split; [apply Qle_refl | discriminate].
Qed.

(** X10. On a row with at least one column, fillRate, textCellRatio and
    headerTermScore lie between 0 and 1 and textCellRatio never exceeds
    fillRate; whenever evaluateConsistencyOfFollowingRows returns, its
    score lies between 0 and 1 too. *)
Theorem features_in_unit_interval
    (jsonData : grid) (i : nat) (r : row) :
  r <> [] ->
  unitInterval (fillRate r)
  /\ unitInterval (textCellRatio r)
  /\ le (textCellRatio r) (fillRate r)
  /\ unitInterval (headerTermScore r)
  /\ forall v, evaluateConsistencyOfFollowingRows jsonData i = Some v ->
               unitInterval v.
Proof.
  exact (feature_ranges jsonData i r).
Qed.

Lemma features_in_unit_interval_witness :
  [CStr "Claim ID"; CStr ""; CNum (Fin 3)] <> []
  /\ fillRate [CStr "Claim ID"; CStr ""; CNum (Fin 3)] = Fin (2 # 3)
  /\ unitInterval (textCellRatio [CStr "Claim ID"; CStr ""; CNum (Fin 3)]).
Proof.
  assert (H : [CStr "Claim ID"; CStr ""; CNum (Fin 3)] <> []) by discriminate.
  split; [exact H|]. split; [reflexivity|].
  exact (proj1 (proj2 (features_in_unit_interval [] 0 _ H))).
Defined.

(** ** Blank rows *)

Lemma add_PInf_r (x : number) : nonneg x -> add x PInf = PInf.
Proof. destruct x; simpl; tauto. Qed.

Lemma add_PInf_l (x : number) : nonneg x -> add PInf x = PInf.
Proof. destruct x; simpl; tauto. Qed.

Lemma unitInterval_Fin (x : number) : unitInterval x -> exists q, x = Fin q.
Proof. destruct x as [q| | |]; simpl; try tauto. eauto. Qed.

Lemma filledCount_pos_nonempty (r : row) : 0 < filledCount r -> r <> [].
Proof. intros H ->. unfold filledCount in H. simpl in H. lia. Qed.

Lemma weightedScore_blank (jsonData : grid) (k : nat) (r : row) (w : number) :
  r <> [] -> filledCount r = 0 ->
  weightedScore jsonData k r = Some w -> w = PInf.
Proof.
  intros Hr H0. unfold weightedScore.
  destruct (evaluateConsistencyOfFollowingRows jsonData k) as [c|] eqn:E;
    simpl; [|discriminate].
  intros H; inversion H; subst. clear H.
  rewrite (uniquenessRatio_infinite r Hr H0).
  assert (Hlen := length_pos r Hr).
  change (mul PInf (Fin (3 # 20))) with PInf.
  rewrite add_PInf_r.
  - apply add_PInf_l. apply nonneg_mul_const; [reflexivity|].
    now apply (evaluateConsistency_nonneg jsonData k).
  - repeat apply nonneg_add; apply nonneg_mul_const; try reflexivity.
    + apply nonneg_div_nat. now right.
    + apply nonneg_div_nat. now right.
    + apply nonneg_min_one. apply nonneg_div_nat. now right.
Qed.

Lemma applyPenalties_PInf (r : row) : applyPenalties r PInf = PInf.
Proof.
  unfold applyPenalties.
  destruct (hasForbiddenWords r), (hasOnlyOneValue r); reflexivity.
Qed.

Lemma rowScore_blank (jsonData : grid) (k : nat) (r : row) (s : number) :
  r <> [] -> filledCount r = 0 -> rowScore jsonData k r = Some s -> s = PInf.
Proof.
  intros Hr H0. unfold rowScore.
  destruct (weightedScore jsonData k r) as [w|] eqn:Ew; simpl; [|discriminate].
  intros H; inversion H; subst.
  rewrite (weightedScore_blank jsonData k r w Hr H0 Ew).
  apply applyPenalties_PInf.
Qed.

Lemma rowScore_finite (jsonData : grid) (k : nat) (r : row) (s : number) :
  0 < filledCount r -> rowScore jsonData k r = Some s -> isFinite s.
Proof.
  intros Hf. assert (Hr := filledCount_pos_nonempty r Hf).
  unfold rowScore, weightedScore.
  destruct (evaluateConsistencyOfFollowingRows jsonData k) as [c|] eqn:E;
    simpl; [|discriminate].
  intros H; inversion H; subst. clear H.
  destruct (feature_ranges jsonData k r Hr) as (H1 & H2 & _ & H3 & H4).
  apply unitInterval_Fin in H1, H2, H3.
  destruct H1 as (q1 & ->), H2 as (q2 & ->), H3 as (q3 & ->).
  destruct (unitInterval_Fin c (H4 c E)) as (q4 & ->).
  unfold uniquenessRatio. rewrite div_nat_pos by assumption.
  unfold applyPenalties.
  destruct (hasForbiddenWords r), (hasOnlyOneValue r); exact I.
Qed.

(* The selection, from the scan: when row [k] is the first best of the
   window, no other index is returned. *)
Lemma findHeaderRow_selects (jsonData : grid) (maxRows k : nat) (r : row) (s : number) :
  scanned jsonData maxRows k r ->
  rowScore jsonData k r = Some s ->
  firstBest jsonData maxRows k s ->
  forall h, findHeaderRow jsonData maxRows = Some h ->
            h = (if ltb s (Fin (1 # 5)) then 0 else k).
Proof.
  intros Hk Hs Hbest h Hh.
  destruct (findHeaderRow_scan _ _ _ Hh) as [[Hnil _]|(rs & Hscan & ->)].
  - subst. destruct Hk as (Hk & _). simpl in Hk. lia.
  - destruct (firstMax rs) as [b|] eqn:Hb.
    + destruct (firstMax_is_firstBest _ _ _ _ _ _ _ Hscan Hb Hk Hs Hbest) as [-> ->].
      reflexivity.
    + apply firstMax_None in Hb. subst.
      destruct (scan_has _ _ _ Hscan _ _ _ Hk Hs).
Qed.

Lemma findHeaderRow_scores (jsonData : grid) (maxRows h k : nat) (r : row) :
  findHeaderRow jsonData maxRows = Some h ->
  scanned jsonData maxRows k r ->
  exists s, rowScore jsonData k r = Some s.
Proof.
  intros Hh Hk.
  destruct (findHeaderRow_scan _ _ _ Hh) as [[Hnil _]|(rs & Hscan & _)].
  - subst. destruct Hk as (Hk & _). simpl in Hk. lia.
  - destruct Hk as (Hk & Hn & Hr).
    assert (Hw : nth_error (firstn (Nat.min maxRows (List.length jsonData)) jsonData) k
                 = Some (Some r)) by (apply nth_error_firstn_Some; tauto).
    destruct (entries_complete _ _ _ _ Hscan k r Hw Hr) as (s & Hs & _).
    exists s. exact Hs.
Qed.

(** X11. A scanned row that has columns but no non-empty cell scores
    Infinity, and every scanned row with a non-empty cell scores a finite
    value; so the first such blank row of the scan window is the only index
    findHeaderRow can return, and it is returned whenever no row slot of the
    grid is null or undefined. *)
Theorem blank_row_is_selected (jsonData : grid) (k : nat) (r : row) :
  scanned jsonData defaultMaxRows k r ->
  filledCount r = 0 ->
  (forall k' r', scanned jsonData defaultMaxRows k' r' -> k' < k ->
                 0 < filledCount r') ->
  (forall s, rowScore jsonData k r = Some s -> s = PInf)
  /\ (forall h, findHeaderRow jsonData defaultMaxRows = Some h -> h = k)
  /\ (Forall present jsonData -> findHeaderRow jsonData defaultMaxRows = Some k).
Proof.
  intros Hk H0 Hbefore.
  assert (Hr : r <> []) by (destruct Hk as (_ & _ & Hr); exact Hr).
  assert (Hsel : forall h, findHeaderRow jsonData defaultMaxRows = Some h -> h = k).
  { intros h Hh.
    destruct (findHeaderRow_scores _ _ _ _ _ Hh Hk) as (s & Hs).
    assert (Hinf := rowScore_blank _ _ _ _ Hr H0 Hs). subst s.
    assert (Hbest : firstBest jsonData defaultMaxRows k PInf).
    { intros k' r' s' Hk' Hs'. split.
      - assert (Hnn : nonneg s').
        { destruct Hk' as (_ & _ & Hr'). now apply (rowScore_nonneg jsonData k' r'). }
        destruct s'; simpl in *; tauto.
      - intros Hlt.
        assert (Hfin := rowScore_finite _ _ _ _ (Hbefore _ _ Hk' Hlt) Hs').
        destruct s'; simpl in *; tauto. }
    exact (findHeaderRow_selects _ _ _ _ _ Hk Hs Hbest h Hh). }
  split; [|split; [exact Hsel|]].
  - intros s Hs. now apply (rowScore_blank jsonData k r).
  - intros Hp. destruct (findHeaderRow_total jsonData defaultMaxRows Hp) as (h & Hh).
    now rewrite Hh, (Hsel h Hh).
Qed.

Lemma blank_row_is_selected_witness :
  scanned sampleGrid defaultMaxRows 1 [CStr ""; CStr ""; CStr ""]
  /\ filledCount [CStr ""; CStr ""; CStr ""] = 0
  /\ findHeaderRow sampleGrid defaultMaxRows = Some 1.
Proof.
  assert (Hk : scanned sampleGrid defaultMaxRows 1 [CStr ""; CStr ""; CStr ""]).
  { repeat split; [simpl; lia | discriminate]. }
  split; [exact Hk|]. split; [reflexivity|].
  apply (blank_row_is_selected sampleGrid 1 _ Hk eq_refl).
  - intros k' r' (Hlt & Hn & _) Hk'.
    destruct k' as [|k']; [|lia].
    inversion Hn; subst. unfold filledCount. simpl. lia.
  - repeat constructor; discriminate.
Defined.

(** ** The lookahead at the end of the grid, and thrown errors *)

(** X12. The lookahead of row i is the min(4, rowCount - i - 2) rows that
    start at row i+1; for the last two rows of a grid (and any index beyond)
    it is empty and the consistency score is 0, whatever the rows hold. *)
Theorem evaluateConsistency_window (jsonData : grid) (i : nat) :
  followingRows jsonData i =
  firstn (Nat.min 4 (List.length jsonData - i - 2)) (skipn (i + 1) jsonData)
  /\ List.length (followingRows jsonData i) = Nat.min 4 (List.length jsonData - i - 2)
  /\ (List.length jsonData <= i + 2 ->
      evaluateConsistencyOfFollowingRows jsonData i = Some (Fin 0)).
Proof.
  split; [apply followingRows_eq|]. split; [apply followingRows_length|].
  intros Hlen. unfold evaluateConsistencyOfFollowingRows.
  destruct (List.length jsonData <=? i + 1); [reflexivity|].
  cbv zeta. rewrite followingRows_length.
  replace (Nat.min 4 (List.length jsonData - i - 2)) with 0 by lia.
  reflexivity.
Qed.

Lemma evaluateConsistency_window_witness :
  List.length threeRows <= 1 + 2
  /\ evaluateConsistencyOfFollowingRows threeRows 1 = Some (Fin 0).
Proof.
  split; [simpl; lia|].
  apply (evaluateConsistency_window threeRows 1). simpl; lia.
Defined.

Lemma scanColumn_None (colIndex : nat) (dataRows : list (option row)) :
  forall types validCells,
    scanColumn colIndex dataRows types validCells = None <-> In None dataRows.
Proof.
  induction dataRows as [|o rows IH]; intros types validCells; simpl.
  - split; [discriminate | tauto].
  - destruct o as [r|].
    + destruct (nth_error r colIndex) as [c|]; [destruct (non_empty c)|];
        rewrite IH; split; try tauto; intros [H|H]; try discriminate; exact H.
    + split; [now left | reflexivity].
Qed.

Lemma countConsistent_None (dataRows : list (option row)) (headerCells : list cell) :
  forall colIndex n,
    countConsistent headerCells colIndex dataRows n = None
    <-> existsb non_empty headerCells = true /\ In None dataRows.
Proof.
  induction headerCells as [|h rest IH]; intros colIndex n; simpl.
  - split; [discriminate | intros [H _]; discriminate].
  - destruct (non_empty h); simpl.
    + destruct (scanColumn colIndex dataRows [] 0) as [[types valid]|] eqn:E; simpl.
      * rewrite IH. split; [tauto|]. intros [_ Hin]. split; [|assumption].
        apply (scanColumn_None colIndex dataRows [] 0) in Hin. congruence.
      * apply scanColumn_None in E. tauto.
    + apply IH.
Qed.

Lemma evaluateConsistency_None (jsonData : grid) (i : nat) :
  evaluateConsistencyOfFollowingRows jsonData i = None
  <-> followingRows jsonData i <> []
      /\ (nth i jsonData None = None
          \/ exists hr, nth i jsonData None = Some hr
                        /\ existsb non_empty hr = true
                        /\ In None (followingRows jsonData i)).
Proof.
  unfold evaluateConsistencyOfFollowingRows.
  assert (Hlen := followingRows_length jsonData i).
  destruct (List.length jsonData <=? i + 1) eqn:E.
  - apply Nat.leb_le in E. split; [discriminate|].
    intros [Hne _]. apply length_pos in Hne. lia.
  - cbv zeta. destruct (List.length (followingRows jsonData i) =? 0) eqn:E0.
    + apply Nat.eqb_eq in E0. split; [discriminate|].
      intros [Hne _]. apply length_pos in Hne. lia.
    + apply Nat.eqb_neq in E0.
      assert (Hne : followingRows jsonData i <> [])
        by (intros H; rewrite H in E0; now apply E0).
      destruct (nth i jsonData None) as [hr|]; simpl.
      * destruct (countConsistent hr 0 (followingRows jsonData i) 0) as [c|] eqn:Ec;
          simpl.
        -- split; [discriminate|].
           intros [_ [H|(hr' & Hhr & Hex & Hin)]]; [discriminate|].
           inversion Hhr; subst.
           assert (Hn : countConsistent hr' 0 (followingRows jsonData i) 0 = None)
             by (apply countConsistent_None; tauto).
           congruence.
        -- apply countConsistent_None in Ec. split; [|reflexivity].
           intros _. split; [assumption|]. right. exists hr. tauto.
      * split; [|reflexivity]. intros _. split; [assumption | now left].
Qed.

Lemma rowScore_None (jsonData : grid) (i : nat) (r : row) :
  rowScore jsonData i r = None <-> evaluateConsistencyOfFollowingRows jsonData i = None.
Proof.
  unfold rowScore, weightedScore.
  destruct (evaluateConsistencyOfFollowingRows jsonData i); simpl;
    split; congruence.
Qed.

Lemma entries_None (jsonData : grid) (rows : list (option row)) :
  forall start,
    entries jsonData rows start = None
    <-> exists k r, nth_error rows k = Some (Some r) /\ r <> []
                    /\ rowScore jsonData (start + k) r = None.
Proof.
  induction rows as [|o rows IH]; intros start.
  - simpl. split; [discriminate|]. intros (k & r & H & _). destruct k; discriminate.
  - assert (Hshift : entries jsonData rows (S start) = None
                     <-> exists k r, nth_error (o :: rows) (S k) = Some (Some r)
                                     /\ r <> []
                                     /\ rowScore jsonData (start + S k) r = None).
    { rewrite IH. split; intros (k & r & H1 & H2 & H3); exists k, r;
        simpl; rewrite Nat.add_succ_r in *; simpl in *; tauto. }
    destruct o as [[|c r0]|]; simpl entries.
    + rewrite Hshift. split.
      * intros (k & r & H). exists (S k), r. exact H.
      * intros ([|k] & r & H1 & H2 & H3); [simpl in H1; congruence|].
        exists k, r. tauto.
    + destruct (rowScore jsonData start (c :: r0)) as [s|] eqn:Es; simpl.
      * destruct (entries jsonData rows (S start)) as [tl|] eqn:Et; simpl.
        -- split; [discriminate|].
           intros ([|k] & r & H1 & H2 & H3).
           ++ simpl in H1. inversion H1; subst. rewrite Nat.add_0_r in H3. congruence.
           ++ assert (Hn : Some tl = None) by (apply Hshift; exists k, r; tauto).
              discriminate.
        -- split; [|reflexivity]. intros _.
           destruct (proj1 Hshift eq_refl) as (k & r & H). exists (S k), r. exact H.
      * split; [|reflexivity]. intros _. exists 0, (c :: r0).
        rewrite Nat.add_0_r. repeat split; [discriminate | assumption].
    + rewrite Hshift. split.
      * intros (k & r & H). exists (S k), r. exact H.
      * intros ([|k] & r & H1 & H2 & H3); [simpl in H1; congruence|].
        exists k, r. tauto.
Qed.

(** X13. The two functions throw in these cases only.
    evaluateConsistencyOfFollowingRows throws exactly when the lookahead is
    not empty and either the candidate row is a null slot, or it has a
    non-empty cell and some lookahead row is a null slot.  findHeaderRow
    throws exactly when that happens for some scored row of its window. *)
Theorem thrown_errors (jsonData : grid) (maxRows : nat) :
  (forall i,
      evaluateConsistencyOfFollowingRows jsonData i = None
      <-> followingRows jsonData i <> []
          /\ (nth i jsonData None = None
              \/ exists hr, nth i jsonData None = Some hr
                            /\ existsb non_empty hr = true
                            /\ In None (followingRows jsonData i)))
  /\ (findHeaderRow jsonData maxRows = None
      <-> exists k r, scanned jsonData maxRows k r
                      /\ evaluateConsistencyOfFollowingRows jsonData k = None).
Proof.
  split; [intros i; apply evaluateConsistency_None|].
  unfold findHeaderRow.
  destruct (List.length jsonData =? 0) eqn:E.
  - apply Nat.eqb_eq in E. split; [discriminate|].
    intros (k & r & (Hk & _) & _). lia.
  - cbv zeta. rewrite scanRows_entries.
    destruct (entries jsonData _ 0) as [rs|] eqn:Es; simpl.
    + split.
      * destruct (sortByScore rs) as [|b tl]; [discriminate|].
        destruct (ltb (score b) (Fin (1 # 5))); discriminate.
      * intros (k & r & (Hk & Hn & Hr) & Hev).
        assert (Hnone : entries jsonData
                          (firstn (Nat.min maxRows (List.length jsonData)) jsonData) 0
                        = None).
        { apply entries_None. exists k, r. repeat split; try assumption.
          - apply nth_error_firstn_Some. tauto.
          - simpl. now apply rowScore_None. }
        congruence.
    + split; [|reflexivity]. intros _.
      apply entries_None in Es. destruct Es as (k & r & Hn & Hr & Hs).
      apply nth_error_firstn_Some in Hn. simpl in Hs. apply rowScore_None in Hs.
      exists k, r. unfold scanned. tauto.
Qed.

(** ** Rows beyond the scan never matter *)

Lemma evaluateConsistency_firstn (jsonData : grid) (n i : nat) :
  i + 6 <= n -> n <= List.length jsonData ->
  evaluateConsistencyOfFollowingRows (firstn n jsonData) i
  = evaluateConsistencyOfFollowingRows jsonData i.
Proof.
  intros Hi Hn.
  assert (Hlen : List.length (firstn n jsonData) = n)
    by (rewrite length_firstn; lia).
  assert (Hwin : followingRows (firstn n jsonData) i = followingRows jsonData i).
  { rewrite !followingRows_eq, Hlen.
    replace (Nat.min 4 (n - i - 2)) with 4 by lia.
    replace (Nat.min 4 (List.length jsonData - i - 2)) with 4 by lia.
    rewrite skipn_firstn_comm, firstn_firstn. f_equal. lia. }
  unfold evaluateConsistencyOfFollowingRows.
  rewrite Hwin, Hlen, nth_firstn.
  replace (i <? n) with true by (symmetry; apply Nat.ltb_lt; lia).
  replace (n <=? i + 1) with false by (symmetry; apply Nat.leb_gt; lia).
  replace (List.length jsonData <=? i + 1) with false
    by (symmetry; apply Nat.leb_gt; lia).
  reflexivity.
Qed.

Lemma entries_ext (g g' : grid) (rows : list (option row)) :
  forall start,
    (forall k, start <= k < start + List.length rows ->
               evaluateConsistencyOfFollowingRows g k
               = evaluateConsistencyOfFollowingRows g' k) ->
    entries g rows start = entries g' rows start.
Proof.
  induction rows as [|o rows IH]; intros start H; [reflexivity|].
  assert (Htl : entries g rows (S start) = entries g' rows (S start)).
  { apply IH. intros k Hk. apply H. simpl. lia. }
  destruct o as [[|c r]|]; simpl; try exact Htl.
  unfold rowScore, weightedScore. rewrite (H start) by (simpl; lia).
  now rewrite Htl.
Qed.

(** X14. findHeaderRow reads the first maxRowsToCheck + 5 rows only: two
    grids that have at least that many rows and agree on them get the same
    result (the same index, or the same thrown error). *)
Theorem findHeaderRow_ignores_deep_rows (g1 g2 : grid) (maxRows : nat) :
  maxRows + 5 <= List.length g1 ->
  maxRows + 5 <= List.length g2 ->
  firstn (maxRows + 5) g1 = firstn (maxRows + 5) g2 ->
  findHeaderRow g1 maxRows = findHeaderRow g2 maxRows.
Proof.
  assert (Hcut : forall g, maxRows + 5 <= List.length g ->
                   findHeaderRow g maxRows
                   = findHeaderRow (firstn (maxRows + 5) g) maxRows).
  { intros g Hg. unfold findHeaderRow.
    assert (Hlen : List.length (firstn (maxRows + 5) g) = maxRows + 5)
      by (rewrite length_firstn; lia).
    rewrite Hlen.
    replace (maxRows + 5 =? 0) with false by (symmetry; apply Nat.eqb_neq; lia).
    replace (List.length g =? 0) with false by (symmetry; apply Nat.eqb_neq; lia).
    cbv zeta. rewrite !scanRows_entries.
    replace (Nat.min maxRows (List.length g)) with maxRows by lia.
    replace (Nat.min maxRows (maxRows + 5)) with maxRows by lia.
    rewrite firstn_firstn.
    replace (Nat.min maxRows (maxRows + 5)) with maxRows by lia.
    rewrite (entries_ext g (firstn (maxRows + 5) g) (firstn maxRows g) 0);
      [reflexivity|].
    intros k Hk. rewrite length_firstn in Hk.
    symmetry. apply evaluateConsistency_firstn; lia. }
  intros H1 H2 Heq. now rewrite (Hcut g1 H1), (Hcut g2 H2), Heq.
Qed.

Lemma findHeaderRow_ignores_deep_rows_witness :
  findHeaderRow sampleGrid 2
  = findHeaderRow (firstn 7 sampleGrid ++ [None; Some [CStr "summary"]]) 2.
Proof.
  apply (findHeaderRow_ignores_deep_rows sampleGrid
           (firstn 7 sampleGrid ++ [None; Some [CStr "summary"]]) 2).
  - simpl; lia.
  - simpl; lia.
  - reflexivity.
Defined.

(** ** The rounding of the rejected amount *)



(** ** Where the two amount parsers agree *)

Lemma filter_all {A : Type} (p : A -> bool) (l : list A) :
  forallb p l = true -> filter p l = l.
Proof.
  induction l as [|x l IH]; simpl; [reflexivity|].
  intros H. apply andb_true_iff in H. destruct H as [Hx Hl].
  now rewrite Hx, IH.
Qed.

(** X16. The parse of the Aggregator and the parse giving originalAmt
    return the same value on every number cell other than NaN, on null,
    undefined and boolean cells (both give 0), and on every text made only
    of digits, '.' and '-'. *)
Theorem amount_parsers_agree (v : cell) :
  match v with
  | CNum n => n <> NaN
  | CStr s => plainNumeral s
  | CDate _ _ => False
  | _ => True
  end ->
  eqv (parseRemittanceAmount v) (parseOriginalAmt v).
Proof.
  destruct v as [| |b|n|s|d t]; intros H.
  - vm_compute. reflexivity.
  - vm_compute. reflexivity.
  - destruct b; vm_compute; reflexivity.
  - unfold parseRemittanceAmount, parseOriginalAmt, parseFloatCell, or_zero.
    destruct n as [q| | |]; try (simpl; tauto); try congruence.
    unfold truthy. destruct (Qeq_bool q 0) eqn:E; simpl.
    + now apply Qeq_bool_iff.
    + reflexivity.
  - unfold parseRemittanceAmount, parseOriginalAmt, parseFloatCell, toString.
    unfold strip_non_numeric, plainNumeral in *.
    rewrite (filter_all _ _ H), string_of_list_ascii_of_string.
    destruct (or_zero (parseFloat s)) as [q| | |]; simpl; try tauto. reflexivity.
  - destruct H.
Qed.

Lemma amount_parsers_agree_witness :
  plainNumeral "-12.50"
  /\ eqv (parseRemittanceAmount (CStr "-12.50")) (parseOriginalAmt (CStr "-12.50"))
  /\ parseOriginalAmt (CStr "-12.50") = Fin (-25 # 2).
Proof.
  split; [reflexivity|]. split; [|reflexivity].
  apply (amount_parsers_agree (CStr "-12.50")). reflexivity.
Defined.

(** ** The rows read from a worksheet *)

Example formatDate_examples :
  map formatDate
    [ {| getDate := 5; getMonth := 2; getFullYear := 2024;
         getHours := 0; getMinutes := 0; getSeconds := 0 |};
      {| getDate := 17; getMonth := 10; getFullYear := 2023;
         getHours := 13; getMinutes := 5; getSeconds := 9 |};
      {| getDate := 1; getMonth := 0; getFullYear := 2025;
         getHours := 0; getMinutes := 30; getSeconds := 0 |} ]
  = ["05/03/2024"; "17/11/2023  1:05:09 PM"; "01/01/2025  12:30:00 AM"]%string.
Proof. reflexivity. Qed.

(** X17. The hour readExcelFile writes for a date cell is between 1 and 12,
    and with the AM/PM mark it determines the hour of the day: nothing is
    lost for hours 0 to 23. *)
Theorem hours12_round_trip (hours : nat) :
  hours < 24 ->
  1 <= hours12 hours <= 12
  /\ hours = hours12 hours mod 12 + (if (ampm hours =? "PM")%string then 12 else 0).
Proof.
  intros H. unfold hours12, ampm.
  do 24 (destruct hours as [|hours]; [simpl; lia|]). lia.
Qed.

Lemma hours12_round_trip_witness :
  13 < 24 /\ hours12 13 = 1 /\ ampm 13 = "PM"%string
  /\ 13 = hours12 13 mod 12 + (if (ampm 13 =? "PM")%string then 12 else 0).
Proof.
  assert (H : 13 < 24) by lia.
  split; [exact H|]. split; [reflexivity|]. split; [reflexivity|].
  exact (proj2 (hours12_round_trip 13 H)).
Defined.

Section ReadRowsFacts.

Variable dates : nat -> dateFields.
Variable ws : worksheet.
Variable range : sheetRange.
Variable headerRowIndex : nat.
Variable dateColumns : list nat.

Let labelStep (labels : list string) (C : nat) : list string :=
  match ws headerRowIndex C with
  | Some headerCell =>
      let header := toString (cellValue headerCell) in
      if in_dec string_dec header labels then labels else labels ++ [header]
  | None => labels
  end.

Let headed (R C : nat) : bool :=
  match ws headerRowIndex C, ws R C with
  | Some _, Some _ => true
  | _, _ => false
  end.

Lemma readColumn_step (R C : nat) (row row' : record) (e e' : bool) :
  readColumn dates ws headerRowIndex dateColumns R (row, e) C = Some (row', e') ->
  keys row' = labelStep (keys row) C
  /\ (NoDup (keys row) -> NoDup (keys row'))
  /\ e' = e && negb (headed R C).
Proof.
  unfold readColumn, labelStep, headed.
  destruct (ws headerRowIndex C) as [hc|].
  - cbv zeta. destruct (ws R C) as [c|].
    + destruct (existsb (Nat.eqb C) dateColumns && (cellType c =? "d")%string).
      * destruct (cellValue c); try discriminate.
        intros H; inversion H; subst.
        split; [apply keys_obj_set|]. split; [intros Hn; now apply keys_obj_set_NoDup|].
        now rewrite andb_false_r.
      * intros H; inversion H; subst.
        split; [apply keys_obj_set|]. split; [intros Hn; now apply keys_obj_set_NoDup|].
        now rewrite andb_false_r.
    + intros H; inversion H; subst.
      split; [apply keys_obj_set|]. split; [intros Hn; now apply keys_obj_set_NoDup|].
      now rewrite andb_true_r.
  - intros H; inversion H; subst. split; [reflexivity|]. split; [tauto|].
    now rewrite andb_true_r.
Qed.

Lemma foldM_readColumn (R : nat) (cols : list nat) :
  forall (row row' : record) (e e' : bool),
    foldM (readColumn dates ws headerRowIndex dateColumns R) cols (row, e)
    = Some (row', e') ->
    keys row' = fold_left labelStep cols (keys row)
    /\ (NoDup (keys row) -> NoDup (keys row'))
    /\ e' = e && negb (existsb (headed R) cols).
Proof.
  induction cols as [|C cols IH]; intros row row' e e' H; cbn [foldM] in H.
  - inversion H; subst. simpl. split; [reflexivity|]. split; [tauto|].
    now rewrite andb_true_r.
  - destruct (readColumn dates ws headerRowIndex dateColumns R (row, e) C)
      as [[row1 e1]|] eqn:E; cbn [bind] in H; [|discriminate].
    destruct (readColumn_step R C row row1 e e1 E) as (Hk & Hnd & He).
    destruct (IH row1 row' e1 e' H) as (Hk' & Hnd' & He').
    split; [simpl; now rewrite Hk', Hk|]. split; [tauto|].
    simpl. rewrite He', He, negb_orb. now rewrite andb_assoc.
Qed.

Lemma foldM_readColumn_total (R : nat) (cols : list nat) :
  datesWellTyped ws ->
  forall acc, exists res,
    foldM (readColumn dates ws headerRowIndex dateColumns R) cols acc = Some res.
Proof.
  intros Hwt. induction cols as [|C cols IH]; intros acc; cbn [foldM]; [eauto|].
  assert (Hstep : exists acc',
             readColumn dates ws headerRowIndex dateColumns R acc C = Some acc').
  { unfold readColumn. destruct acc as [row e].
    destruct (ws headerRowIndex C) as [hc|]; [|eauto].
    cbv zeta. destruct (ws R C) as [c|] eqn:Ec; [|eauto].
    destruct (existsb (Nat.eqb C) dateColumns) ; simpl; [|eauto].
    destruct (cellType c =? "d")%string eqn:Et; [|eauto].
    apply String.eqb_eq in Et.
    destruct (Hwt R C c Ec Et) as (ref & text & ->). eauto. }
  destruct Hstep as (acc' & ->). simpl. apply IH.
Qed.

Lemma foldM_readRow (rows : list nat) :
  forall finalData out,
    foldM (readRow dates ws range headerRowIndex dateColumns) rows finalData = Some out ->
    exists recs,
      out = finalData ++ recs
      /\ Forall2 (recordOf dates ws range headerRowIndex dateColumns)
           (filter (hasHeadedCell ws range headerRowIndex) rows) recs.
Proof.
  induction rows as [|R rows IH]; intros finalData out H; cbn [foldM] in H.
  - inversion H; subst. exists []. rewrite app_nil_r. split; [reflexivity|constructor].
  - unfold readRow at 1 in H.
    destruct (foldM (readColumn dates ws headerRowIndex dateColumns R)
                (columnsOf range) ([], true)) as [[row e]|] eqn:E;
      cbn [bind] in H; [|discriminate].
    destruct (foldM_readColumn R (columnsOf range) [] row true e E) as (_ & _ & He).
    simpl in He. cbn [filter]. unfold hasHeadedCell at 1. fold (headed R).
    destruct (existsb (headed R) (columnsOf range)); simpl in He; subst e.
    + destruct (IH _ _ H) as (recs & -> & Hrecs).
      exists (row :: recs). rewrite <- app_assoc. split; [reflexivity|].
      constructor; assumption.
    + apply IH. exact H.
Qed.

End ReadRowsFacts.

Lemma foldM_app {S A : Type} (f : S -> A -> option S) (l1 l2 : list A) :
  forall s, foldM f (l1 ++ l2) s = (s' <- foldM f l1 s ;; foldM f l2 s').
Proof.
  induction l1 as [|x l1 IH]; intros s; cbn [foldM app bind]; [reflexivity|].
  destruct (f s x) as [s1|]; cbn [bind]; [apply IH | reflexivity].
Qed.

Lemma seq_split_after (l1 l2 : list nat) (C : nat) :
  forall a n, seq a n = l1 ++ C :: l2 -> forall x, In x l2 -> C < x.
Proof.
  induction l1 as [|y l1 IH]; intros a n H x Hx.
  - destruct n as [|n]; simpl in H; [discriminate|].
    injection H as HC Hl. rewrite <- Hl in Hx. apply in_seq in Hx. lia.
  - destruct n as [|n]; simpl in H; [discriminate|].
    injection H as _ Hl. exact (IH _ _ Hl x Hx).
Qed.

Lemma readColumn_other_label (dates : nat -> dateFields) (ws : worksheet)
    (h : nat) (dateColumns : list nat) (R : nat) (cols : list nat) (label : string) :
  (forall C hc, In C cols -> ws h C = Some hc -> toString (cellValue hc) <> label) ->
  forall row e row' e',
    foldM (readColumn dates ws h dateColumns R) cols (row, e) = Some (row', e') ->
    obj_get row' label = obj_get row label.
Proof.
  induction cols as [|C cols IH]; intros Hother row e row' e' H; cbn [foldM] in H.
  - now inversion H.
  - destruct (readColumn dates ws h dateColumns R (row, e) C) as [[row1 e1]|] eqn:E;
      cbn [bind] in H; [|discriminate].
    rewrite (IH (fun C' hc Hin => Hother C' hc (or_intror Hin)) _ _ _ _ H).
    unfold readColumn in E.
    destruct (ws h C) as [hc|] eqn:Eh; [|now inversion E].
    assert (Hne := Hother C hc (or_introl eq_refl) Eh).
    cbv zeta in E. destruct (ws R C) as [c|].
    + destruct (existsb (Nat.eqb C) dateColumns && (cellType c =? "d")%string).
      * destruct (cellValue c); try discriminate.
        inversion E; subst. now apply obj_get_set_other.
      * inversion E; subst. now apply obj_get_set_other.
    + inversion E; subst. now apply obj_get_set_other.
Qed.

Lemma dateColumnsOf_member (ws : worksheet) (range : sheetRange) (h C : nat) :
  In C (columnsOf range) ->
  existsb (Nat.eqb C) (dateColumnsOf ws range h) =
  match ws (h + 1) C with
  | Some c => (cellType c =? "d")%string
  | None => false
  end.
Proof.
  intros HC. unfold dateColumnsOf.
  set (p := fun C => match ws (h + 1) C with
                     | Some c => (cellType c =? "d")%string
                     | None => false
                     end).
  change (existsb (Nat.eqb C) (filter p (columnsOf range)) = p C).
  destruct (p C) eqn:E.
  - apply existsb_exists. exists C. split; [|apply Nat.eqb_refl].
    apply filter_In. tauto.
  - destruct (existsb (Nat.eqb C) (filter p (columnsOf range))) eqn:Ex; [|reflexivity].
    apply existsb_exists in Ex. destruct Ex as (x & Hx & Heq).
    apply Nat.eqb_eq in Heq. subst x. apply filter_In in Hx. destruct Hx; congruence.
Qed.

(** X18. When readExcelFile resolves, its records stand, in sheet order,
    for exactly the rows below the header row that have a cell object under
    some column with a header cell: every other row is dropped, so there are
    at most range.e.r - headerRowIndex records.  It does resolve whenever
    every cell typed 'd' holds a Date. *)
Theorem readRows_kept_rows (dates : nat -> dateFields) (ws : worksheet)
    (range : sheetRange) (headerRowIndex : nat) :
  (forall out,
      readRows dates ws range headerRowIndex = Some out ->
      Forall2 (recordOf dates ws range headerRowIndex
                 (dateColumnsOf ws range headerRowIndex))
        (filter (hasHeadedCell ws range headerRowIndex)
           (rowsBelow range headerRowIndex))
        out
      /\ List.length out <= e_r range - headerRowIndex)
  /\ (datesWellTyped ws ->
      exists out, readRows dates ws range headerRowIndex = Some out).
Proof.
  split.
  - intros out H. unfold readRows in H.
    destruct (foldM_readRow dates ws range headerRowIndex _ _ _ _ H)
      as (recs & -> & Hrecs).
    simpl. split; [assumption|].
    rewrite <- (Forall2_length Hrecs).
    etransitivity; [apply filter_length_le|].
    unfold rowsBelow. rewrite length_seq. lia.
  - intros Hwt. unfold readRows.
    generalize (@nil record).
    induction (rowsBelow range headerRowIndex) as [|R rows IH]; intros acc;
      cbn [foldM]; [eauto|].
    unfold readRow at 1.
    destruct (foldM_readColumn_total dates ws headerRowIndex
                (dateColumnsOf ws range headerRowIndex) R (columnsOf range) Hwt
                ([], true)) as ([row e] & ->).
    cbn [bind]. apply IH.
Qed.

(** X19. Every record readExcelFile returns has the same labels: the
    property keys of the header cells of the range, each once, in column
    order. *)
Theorem readRows_labels (dates : nat -> dateFields) (ws : worksheet)
    (range : sheetRange) (headerRowIndex : nat) (out : list record) :
  readRows dates ws range headerRowIndex = Some out ->
  Forall (fun rec => keys rec = headerLabels ws range headerRowIndex
                     /\ NoDup (keys rec)) out.
Proof.
  intros H. unfold readRows in H.
  destruct (foldM_readRow dates ws range headerRowIndex _ _ _ _ H)
    as (recs & -> & Hrecs).
  clear H. simpl. induction Hrecs as [|R rec rows recs HR _ IH]; constructor; [|exact IH].
  unfold recordOf in HR.
  destruct (foldM_readColumn dates ws headerRowIndex _ R (columnsOf range)
              [] rec true false HR) as (Hk & Hnd & _).
  split; [exact Hk | apply Hnd; constructor].
Qed.

(** X20. In the record of a kept sheet row, the field under a header label
    holds what the last column bearing that label gives: '' when the row has
    no cell object there, the cell's value when the cell is not typed 'd',
    and for a cell typed 'd' the formatted date text if the cell just below
    the header in that column is typed 'd' too, else the Date itself. *)
Theorem readRows_values (dates : nat -> dateFields) (ws : worksheet)
    (range : sheetRange) (headerRowIndex R C : nat) (rec : record)
    (headerCell : sheetCell) :
  recordOf dates ws range headerRowIndex (dateColumnsOf ws range headerRowIndex) R rec ->
  In C (columnsOf range) ->
  ws headerRowIndex C = Some headerCell ->
  (forall C' hc, In C' (columnsOf range) -> C < C' ->
                 ws headerRowIndex C' = Some hc ->
                 toString (cellValue hc) <> toString (cellValue headerCell)) ->
  let value := prop rec (toString (cellValue headerCell)) in
  (ws R C = None -> value = CStr "")
  /\ (forall c, ws R C = Some c -> cellType c <> "d"%string -> value = cellValue c)
  /\ (forall c ref text,
        ws R C = Some c -> cellType c = "d"%string -> cellValue c = CDate ref text ->
        value = match ws (headerRowIndex + 1) C with
                | Some below =>
                    if (cellType below =? "d")%string
                    then CStr (formatDate (dates ref)) else CDate ref text
                | None => CDate ref text
                end).
Proof.
  intros Hrec HC Hh Hlast. cbv zeta. unfold recordOf in Hrec.
  destruct (in_split _ _ HC) as (l1 & l2 & Hsplit).
  assert (Hafter : forall x, In x l2 -> C < x)
    by (unfold columnsOf in Hsplit; apply (seq_split_after _ _ _ _ _ Hsplit)).
  rewrite Hsplit, foldM_app in Hrec.
  destruct (foldM (readColumn dates ws headerRowIndex
                    (dateColumnsOf ws range headerRowIndex) R) l1 ([], true))
    as [[row1 e1]|]; cbn [bind] in Hrec; [|discriminate].
  cbn [foldM] in Hrec.
  destruct (readColumn dates ws headerRowIndex
              (dateColumnsOf ws range headerRowIndex) R (row1, e1) C)
    as [[row2 e2]|] eqn:E;
    cbn [bind] in Hrec; [|discriminate].
  assert (Hget : obj_get rec (toString (cellValue headerCell))
                 = obj_get row2 (toString (cellValue headerCell))).
  { apply (readColumn_other_label dates ws headerRowIndex _ R l2 _) with (2 := Hrec).
    intros C' hc Hin Hhc. apply (Hlast C' hc); [|now apply Hafter | assumption].
    rewrite Hsplit. apply in_or_app. right. now right. }
  unfold prop. rewrite Hget. clear Hget Hrec.
  unfold readColumn in E. rewrite Hh in E. cbv zeta in E.
  rewrite (dateColumnsOf_member ws range headerRowIndex C HC) in E.
  split; [|split].
  - intros Hn. rewrite Hn in E. inversion E; subst. now rewrite obj_get_set_same.
  - intros c Hc Ht. rewrite Hc in E. apply String.eqb_neq in Ht.
    rewrite Ht, andb_false_r in E. inversion E; subst. now rewrite obj_get_set_same.
  - intros c ref text Hc Ht Hv. rewrite Hc in E.
    apply String.eqb_eq in Ht. rewrite Ht, andb_true_r, Hv in E.
    destruct (ws (headerRowIndex + 1) C) as [below|].
    + destruct (cellType below =? "d")%string; inversion E; subst;
        now rewrite obj_get_set_same.
    + inversion E; subst. now rewrite obj_get_set_same.
Qed.

Example readRows_sampleSheet :
  readRows sampleDates sampleSheet sampleRange 0
  = Some [ [("Claim ID", CStr "X"); ("Amt", CNum (Fin 80)); ("Date", CStr "05/03/2024")];
           [("Claim ID", CStr "Y"); ("Amt", CStr ""); ("Date", CStr "")] ]%string.
Proof. reflexivity. Qed.

Lemma sampleSheet_wellTyped : datesWellTyped sampleSheet.
Proof.
  intros R C c H Ht. unfold sampleSheet, textCell in H.
  destruct R as [|[|[|[|R]]]]; destruct C as [|[|[|[|C]]]];
    inversion H; subst; simpl in *; try discriminate Ht; eauto.
Qed.

Lemma readRows_kept_rows_witness :
  datesWellTyped sampleSheet
  /\ (exists out, readRows sampleDates sampleSheet sampleRange 0 = Some out)
  /\ filter (hasHeadedCell sampleSheet sampleRange 0) (rowsBelow sampleRange 0) = [1; 3].
Proof.
  split; [exact sampleSheet_wellTyped|]. split; [|reflexivity].
  exact (proj2 (readRows_kept_rows sampleDates sampleSheet sampleRange 0)
           sampleSheet_wellTyped).
Defined.

Lemma readRows_labels_witness :
  Forall (fun rec => keys rec = ["Claim ID"; "Amt"; "Date"]%string /\ NoDup (keys rec))
    [ [("Claim ID", CStr "X"); ("Amt", CNum (Fin 80)); ("Date", CStr "05/03/2024")];
      [("Claim ID", CStr "Y"); ("Amt", CStr ""); ("Date", CStr "")] ]%string.
Proof.
  exact (readRows_labels sampleDates sampleSheet sampleRange 0 _ eq_refl).
Defined.

Lemma readRows_values_witness :
  recordOf sampleDates sampleSheet sampleRange 0 (dateColumnsOf sampleSheet sampleRange 0) 1
    [("Claim ID", CStr "X"); ("Amt", CNum (Fin 80)); ("Date", CStr "05/03/2024")]%string
  /\ prop [("Claim ID", CStr "X"); ("Amt", CNum (Fin 80)); ("Date", CStr "05/03/2024")]%string
       "Date" = CStr (formatDate (sampleDates 1)).
Proof.
  split; [reflexivity|].
  assert (Hlast : forall C' hc, In C' (columnsOf sampleRange) -> 2 < C' ->
                    sampleSheet 0 C' = Some hc ->
                    toString (cellValue hc) <> "Date"%string).
  { intros C' hc Hin Hlt Hh. unfold columnsOf in Hin. simpl in Hin.
    destruct Hin as [<-|[<-|[<-|[<-|[]]]]]; try lia. discriminate Hh. }
  exact (proj2 (proj2 (readRows_values sampleDates sampleSheet sampleRange 0 1 2 _
                         {| cellType := "s"; cellValue := CStr "Date" |}
                         eq_refl (or_intror (or_intror (or_introl eq_refl)))
                         eq_refl Hlast))
           {| cellType := "d"; cellValue := CDate 1 "Tue Mar 05 2024" |} 1
           "Tue Mar 05 2024"%string eq_refl eq_refl eq_refl).
Defined.

(** ** Rows without an empty cell *)

Lemma nodup_length_le {A : Type} (dec : forall x y : A, {x = y} + {x <> y})
    (l : list A) : List.length (nodup dec l) <= List.length l.
Proof.
  apply NoDup_incl_length; [apply NoDup_nodup|].
  intros x Hx. now apply nodup_In in Hx.
Qed.

Lemma weighted_unit (a b c d e : Q) :
  (0 <= a <= 1 -> 0 <= b <= 1 -> 0 <= c <= 1 -> 0 <= d <= 1 -> 0 <= e <= 1 ->
   0 <= a * (1 # 5) + b * (1 # 4) + c * (1 # 10) + d * (3 # 20) + e * (3 # 10) <= 1)%Q.
Proof. intros. split; lra. Qed.

(** X21. A scanned row in which every cell is non-empty has a
    uniquenessRatio between 0 and 1, and its final score lies between 0 and
    1: a score above 1 can only come from a row with an empty cell. *)
Theorem full_row_score_bounded (jsonData : grid) (i : nat) (r : row) (s : number) :
  r <> [] ->
  filledCount r = List.length r ->
  rowScore jsonData i r = Some s ->
  unitInterval (uniquenessRatio r) /\ unitInterval s.
Proof.
  intros Hr Hfull Hs.
  assert (Hlen := length_pos r Hr).
  assert (Hu : unitInterval (uniquenessRatio r)).
  { unfold uniquenessRatio. rewrite Hfull. apply div_nat_unit; [|assumption].
    rewrite uniqueValues_length.
    etransitivity; [apply nodup_length_le|]. now rewrite length_map. }
  split; [exact Hu|].
  unfold rowScore, weightedScore in Hs.
  destruct (evaluateConsistencyOfFollowingRows jsonData i) as [c|] eqn:E;
    simpl in Hs; [|discriminate].
  inversion Hs; subst. clear Hs.
  destruct (feature_ranges jsonData i r Hr) as (H1 & H2 & _ & H3 & H4).
  specialize (H4 c E).
  destruct (fillRate r) as [a| | |]; try (simpl in H1; tauto).
  destruct (textCellRatio r) as [b| | |]; try (simpl in H2; tauto).
  destruct (headerTermScore r) as [t| | |]; try (simpl in H3; tauto).
  destruct (uniquenessRatio r) as [u| | |]; try (simpl in Hu; tauto).
  destruct c as [e| | |]; try (simpl in H4; tauto).
  simpl in H1, H2, H3, Hu, H4.
  assert (Hw := weighted_unit a b t u e H1 H2 H3 Hu H4).
  unfold applyPenalties.
  destruct (hasForbiddenWords r), (hasOnlyOneValue r); simpl;
    rewrite !Qred_correct; split; lra.
Qed.

Lemma full_row_score_bounded_witness :
  [CStr "Claim ID"; CStr "Amt"] <> []
  /\ filledCount [CStr "Claim ID"; CStr "Amt"] = 2
  /\ rowScore smallGrid 1 [CStr "Claim ID"; CStr "Amt"] = Some (Fin 1)
  /\ unitInterval (Fin 1).
Proof.
  assert (H : [CStr "Claim ID"; CStr "Amt"] <> []) by discriminate.
  assert (Hs : rowScore smallGrid 1 [CStr "Claim ID"; CStr "Amt"] = Some (Fin 1))
    by (vm_compute; reflexivity).
  split; [exact H|]. split; [reflexivity|]. split; [exact Hs|].
  exact (proj2 (full_row_score_bounded smallGrid 1 _ (Fin 1) H eq_refl Hs)).
Defined.
